(** * Web Content Analyzer: a shallow embedding of [main.py]

    The program fetches a page, extracts its text, splits it into chunks, asks
    a hosted model for a bullet-point summary of each chunk and renders the
    summaries.  This development embeds the Python functions of [main.py] as
    Rocq functions and proves properties of them.

    - Python [str] values are sequences of Unicode code points: [list N].
    - Calls into Streamlit, requests and the model are recorded as a trace of
      [event]s in program order.
    - The external services (HTTP, HTML parser, text splitter, model) are the
      fields of a [World] record; every theorem quantifies over them. *)

From Stdlib Require Import Ascii String DecimalString.
From Stdlib Require Import NArith ZArith QArith Qminmax Bool Arith Lia List.
Import ListNotations.

Local Open Scope list_scope.
Local Open Scope nat_scope.

(** ** Python strings *)

(** A Python string: its code points in order. *)
Definition pystr : Type := list N.

(** An ASCII literal of the source, as code points. *)
Fixpoint lit (s : string) : pystr :=
  match s with
  | EmptyString => []
  | String a rest => N_of_ascii a :: lit rest
  end.

(** The one-character string written ['\n'] in the source. *)
Definition nl : pystr := [10%N].

(** Truthiness of a string: [if s:] holds exactly when [s] is not empty. *)
Definition truthy (s : pystr) : bool :=
  match s with
  | [] => false
  | _ :: _ => true
  end.

(** [c in chars] for a character and a string. *)
Definition char_in (chars : pystr) (c : N) : bool :=
  existsb (N.eqb c) chars.

(** [str.isspace] on one character: the code points Python treats as
    whitespace. *)
Definition isspace (c : N) : bool :=
  ((9 <=? c) && (c <=? 13) || (28 <=? c) && (c <=? 32)
   || (c =? 133) || (c =? 160) || (c =? 5760)
   || (8192 <=? c) && (c <=? 8202)
   || (c =? 8232) || (c =? 8233) || (c =? 8239) || (c =? 8287)
   || (c =? 12288))%N.

(** Line boundaries of [str.splitlines]. *)
Definition islinebreak (c : N) : bool :=
  ((10 <=? c) && (c <=? 13) || (28 <=? c) && (c <=? 30)
   || (c =? 133) || (c =? 8232) || (c =? 8233))%N.

(** Drops the longest prefix whose characters satisfy [p]. *)
Fixpoint drop_leading (p : N -> bool) (s : pystr) : pystr :=
  match s with
  | [] => []
  | c :: rest => if p c then drop_leading p rest else s
  end.

(** Drops the longest suffix whose characters satisfy [p]. *)
Fixpoint drop_trailing (p : N -> bool) (s : pystr) : pystr :=
  match s with
  | [] => []
  | c :: rest =>
      match drop_trailing p rest with
      | [] => if p c then [] else [c]
      | kept => c :: kept
      end
  end.

(** [s.lstrip(chars)]. *)
Definition lstrip (chars s : pystr) : pystr := drop_leading (char_in chars) s.

(** [s.strip()]: whitespace removed at both ends. *)
Definition strip (s : pystr) : pystr :=
  drop_trailing isspace (drop_leading isspace s).

(** [s.startswith(prefix)]. *)
Fixpoint startswith (prefix s : pystr) : bool :=
  match prefix, s with
  | [], _ => true
  | _ :: _, [] => false
  | a :: prefix', b :: s' => N.eqb a b && startswith prefix' s'
  end.

(** [s.split(sep)] for a non-empty [sep], scanning left to right: [acc] is the
    piece read so far and [skip] counts the characters of a matched separator
    still to pass over. *)
Fixpoint split_scan (sep acc : pystr) (skip : nat) (s : pystr) : list pystr :=
  match s with
  | [] => [acc]
  | c :: rest =>
      match skip with
      | S k => split_scan sep acc k rest
      | O =>
          if startswith sep s
          then acc :: split_scan sep [] (length sep - 1) rest
          else split_scan sep (acc ++ [c]) 0 rest
      end
  end.

Definition split (sep s : pystr) : list pystr := split_scan sep [] 0 s.

(** [s.splitlines()]: a line ends at a line boundary, [\r\n] counts as one, and
    a final boundary opens no further line. *)
Fixpoint splitlines_scan (acc s : pystr) : list pystr :=
  match s with
  | [] => if truthy acc then [acc] else []
  | c :: rest =>
      if islinebreak c then
        match rest with
        | d :: rest' =>
            if (c =? 13)%N && (d =? 10)%N
            then acc :: splitlines_scan [] rest'
            else acc :: splitlines_scan [] rest
        | [] => [acc]
        end
      else splitlines_scan (acc ++ [c]) rest
  end.

Definition splitlines (s : pystr) : list pystr := splitlines_scan [] s.

(** [sep.join(parts)]. *)
Fixpoint join (sep : pystr) (parts : list pystr) : pystr :=
  match parts with
  | [] => []
  | [p] => p
  | p :: rest => p ++ sep ++ join sep rest
  end.

(** [str(i)] for a non-negative integer, as an f-string prints it. *)
Definition str_of_nat (i : nat) : pystr :=
  lit (NilEmpty.string_of_uint (Nat.to_uint i)).

(** [enumerate(xs, start)]. *)
Fixpoint enumerate {A : Type} (start : nat) (xs : list A) : list (nat * A) :=
  match xs with
  | [] => []
  | x :: rest => (start, x) :: enumerate (S start) rest
  end.

(** ** The presenter: [format_bullet_points] *)

(** The argument of the first [lstrip] as the source file spells it: the three
    code points U+00E2, U+20AC and U+00A2. *)
Definition bullet_chars : pystr := [226%N; 8364%N; 162%N].

(** The bullet glyph U+2022. *)
Definition bullet : N := 8226%N.

(** [line.lstrip(bullet_chars).lstrip('-').lstrip('*').strip()]. *)
Definition strip_bullet (line : pystr) : pystr :=
  strip (lstrip (lit "*") (lstrip (lit "-") (lstrip bullet_chars line))).

(** One turn of the loop over [lines]: [formatted_html] after [line]. *)
Definition format_line (formatted_html line : pystr) : pystr :=
  let line := strip line in
  if truthy line
  then formatted_html ++ lit "<div class='bullet-point'>"
         ++ strip_bullet line ++ lit "</div>"
  else formatted_html.

Definition format_bullet_points (text : pystr) : pystr :=
  let lines := split nl (strip text) in
  let formatted_html := lit "<div class='content-box'>" in
  let formatted_html := fold_left format_line lines formatted_html in
  formatted_html ++ lit "</div>".

(** ** Effects: the trace of calls and how a call ends *)

(** The client object returned by [setup_groq]. *)
Record ChatGroq : Type := {
  api_key : pystr;
  model : pystr;
  temperature : Q
}.

(** One call that leaves the program, in the order the calls are made.
    Progress fractions are Python floats in the source; they are kept here as
    the exact rationals the expressions denote. *)
Inductive event : Type :=
| StWrite (body : pystr)                      (* st.write *)
| StProgress (value : Q)                      (* st.progress: new progress bar *)
| StEmpty                                     (* st.empty: new placeholder *)
| StatusText (body : pystr)                   (* status_text.text *)
| ProgressBar (value : Q)                     (* progress_bar.progress *)
| StatusEmpty                                 (* status_text.empty *)
| ProgressEmpty                               (* progress_bar.empty *)
| StError (body : pystr)                      (* st.error *)
| StSuccess (body : pystr)                    (* st.success *)
| StTabs (names : list pystr)                 (* st.tabs *)
| StSubheader (body : pystr)                  (* st.subheader *)
| StMarkdown (body : pystr) (unsafe_allow_html : bool)
| StDownloadButton (label data file_name mime : pystr)
| StTextArea (label value : pystr) (height : nat)
| RequestsGet (url user_agent : pystr)        (* requests.get *)
| ChainInvoke (llm : ChatGroq) (prompt : pystr) (* chain.invoke: one model call *)
| TimeSleep (seconds : Q).                    (* time.sleep *)

(** How a piece of the script ends.  [st.stop()] ends the script through
    Streamlit's script-control exception, which is not an [Exception]:
    [except Exception] does not intercept it. *)
Inductive outcome (A : Type) : Type :=
| Returned (value : A)
| Raised (message : pystr)    (* an [Exception] [e], with [str(e) = message] *)
| Stopped.

Arguments Returned {A} value.
Arguments Raised {A} message.
Arguments Stopped {A}.

(** A run of a piece of the script: the calls it made and how it ended. *)
Definition run (A : Type) : Type := (list event * outcome A)%type.

Definition ret {A : Type} (a : A) : run A := ([], Returned a).

Definition bind {A B : Type} (m : run A) (k : A -> run B) : run B :=
  match snd m with
  | Returned a => (fst m ++ fst (k a), snd (k a))
  | Raised e => (fst m, Raised e)
  | Stopped => (fst m, Stopped)
  end.

Definition emit (e : event) : run unit := ([e], Returned tt).

Definition raise {A : Type} (message : pystr) : run A := ([], Raised message).

Definition st_stop {A : Type} : run A := ([], Stopped).

(** [try: body  except Exception as e: handler(str(e))]. *)
Definition try_except {A : Type} (body : run A) (handler : pystr -> run A)
  : run A :=
  match snd body with
  | Raised e => (fst body ++ fst (handler e), snd (handler e))
  | _ => body
  end.

Notation "x <- m ;; k" := (bind m (fun x => k))
  (at level 61, m at next level, right associativity).
Notation "m ;; k" := (bind m (fun _ => k))
  (at level 61, right associativity).

Definition trace {A : Type} (r : run A) : list event := fst r.
Definition result {A : Type} (r : run A) : outcome A := snd r.

(** ** The surroundings of one run *)

(** What the script reads from its widgets and what the libraries it calls
    answer.  A library call that raises answers [inr message]. *)
Record World : Type := {
  (** [st.text_input("Enter Groq API Key:", type="password")] *)
  groq_api_key : pystr;
  (** [st.text_input("Enter URL to analyze:", ...)] *)
  url : pystr;
  (** [requests.get(url, headers=headers)] followed by [raise_for_status()]:
      [response.text], or the error raised. *)
  requests_get : pystr -> pystr + pystr;
  (** [BeautifulSoup(html, 'html.parser')], every [script] and [style]
      element decomposed, then [get_text(separator='\n', strip=True)]. *)
  soup_get_text : pystr -> pystr;
  (** [RecursiveCharacterTextSplitter(chunk_size, chunk_overlap, separators)
      .create_documents([content])]: the [page_content] of each document. *)
  create_documents : nat -> nat -> list pystr -> pystr -> list pystr;
  (** The model's answer to the [i]-th call of the chain's client with a
      prompt: the completion text, or the error raised. *)
  groq_complete : ChatGroq -> nat -> pystr -> pystr + pystr
}.

(** ** The pipeline *)

Definition user_agent : pystr :=
  lit "Mozilla/5.0 (Windows NT 10.0; Win64; x64) AppleWebKit/537.36 (KHTML, like Gecko) Chrome/91.0.4472.124 Safari/537.36".

Definition setup_groq (w : World) : run ChatGroq :=
  (if truthy (groq_api_key w) then ret tt
   else emit (StError (lit "Please enter your Groq API key!")) ;; st_stop) ;;
  ret {| api_key := groq_api_key w;
         model := lit "mixtral-8x7b-32768";
         temperature := 3 # 10 |}.

(** The clean-up of the extracted text inside [scrape_content]. *)
Definition clean_text (text : pystr) : pystr :=
  let lines := map strip (splitlines text) in
  let chunks :=
    flat_map (fun line => map strip (split (lit "  ") line)) lines in
  join nl (filter truthy chunks).

Definition scrape_content (w : World) (url : pystr) : run (option pystr) :=
  try_except
    (emit (RequestsGet url user_agent) ;;
     match requests_get w url with
     | inr e => raise e
     | inl response_text =>
         let text := soup_get_text w response_text in
         ret (Some (clean_text text))
     end)
    (fun e =>
       emit (StError (lit "Error scraping content: " ++ e)) ;;
       ret None).

Definition separators : list pystr :=
  [nl ++ nl; nl; lit ". "; lit " "; lit ""].

Definition indent : pystr := lit "            ".

(** [summary_prompt.format(text=text)]. *)
Definition summary_prompt (text : pystr) : pystr :=
  lit "Extract and summarize the key points from this text as a bullet-point list."
    ++ nl ++ indent ++ lit "Each point should start with a bullet point ("
    ++ lit "*)."
    ++ nl ++ indent
    ++ lit "Focus on meaningful information and ignore navigation elements."
    ++ nl ++ nl ++ indent ++ lit "Text: " ++ text
    ++ nl ++ nl ++ indent ++ lit "Key Points:".

(** [chain.invoke({"text": text})['text']], as the [i]-th call. *)
Definition chain_invoke (w : World) (llm : ChatGroq) (i : nat) (text : pystr)
  : run pystr :=
  emit (ChainInvoke llm (summary_prompt text)) ;;
  match groq_complete w llm i (summary_prompt text) with
  | inl completion => ret completion
  | inr e => raise e
  end.

(** The progress shown after chunk [i] of [total_splits]. *)
Definition current_progress (i total_splits : nat) : Q :=
  (1 # 2) + ((1 # 2) * inject_Z (Z.of_nat (i + 1)))
            / inject_Z (Z.of_nat total_splits).

(** The loop [for i, split in enumerate(splits)], from index [i] on, with
    [all_summaries] as collected so far. *)
Fixpoint summarize_from (w : World) (llm : ChatGroq) (total_splits i : nat)
    (splits all_summaries : list pystr) : run (list pystr) :=
  match splits with
  | [] => ret all_summaries
  | split :: rest =>
      summary <- chain_invoke w llm i split ;;
      let all_summaries := all_summaries ++ [summary] in
      emit (ProgressBar (Qmin (current_progress i total_splits) 1)) ;;
      emit (TimeSleep (1 # 2)) ;;
      summarize_from w llm total_splits (S i) rest all_summaries
  end.

Definition analyze_url (w : World) (url : pystr) : run (option (list pystr)) :=
  try_except
    (emit (StProgress 0) ;;
     emit StEmpty ;;
     emit (StatusText (lit "Scraping webpage...")) ;;
     content <- scrape_content w url ;;
     match content with
     | None | Some [] => ret None
     | Some content =>
         emit (ProgressBar (1 # 4)) ;;
         emit (StatusText (lit "Processing content...")) ;;
         let splits := create_documents w 2000 200 separators content in
         emit (ProgressBar (1 # 2)) ;;
         emit (StatusText (lit "Analyzing with Groq AI...")) ;;
         llm <- setup_groq w ;;
         let total_splits := length splits in
         all_summaries <- summarize_from w llm total_splits 0 splits [] ;;
         emit StatusEmpty ;;
         emit ProgressEmpty ;;
         ret (Some all_summaries)
     end)
    (fun e =>
       emit (StError (lit "Error: " ++ e)) ;;
       ret None).

(** The body of [for i, summary in enumerate(summaries, 1)]. *)
Definition show_section (entry : nat * pystr) : list event :=
  let (i, summary) := entry in
  [StMarkdown (lit "#### Section " ++ str_of_nat i) false;
   StMarkdown (format_bullet_points summary) true].

(** The branch [if summaries:] of the button handler. *)
Definition show_results (summaries : list pystr) : list event :=
  [StTabs [lit "Formatted Summary"; lit "Raw Text"];
   StSubheader (lit "Analysis Results")]
  ++ flat_map show_section (enumerate 1 summaries)
  ++ [StDownloadButton (lit "Download Summary")
        (join (nl ++ nl) summaries)
        (lit "web_content_summary.txt") (lit "text/plain");
      StTextArea (lit "Raw Summary Text") (join (nl ++ nl) summaries) 400].

(** The block under [if st.button("Analyze", disabled=not url)], run when the
    button was pressed. *)
Definition on_analyze (w : World) : run unit :=
  if truthy (url w) then
    emit (StWrite (lit "Starting analysis...")) ;;
    summaries <- analyze_url w (url w) ;;
    match summaries with
    | Some ((_ :: _) as summaries) => (show_results summaries, Returned tt)
    | _ => ret tt
    end ;;
    emit (StSuccess (lit "Analysis complete!"))
  else ret tt.

(** ** Reading a trace *)

(** What [scrape_content] hands back for a URL: the cleaned text of the page,
    or [None] when the request fails. *)
Definition extracted_text (w : World) (url : pystr) : option pystr :=
  match requests_get w url with
  | inl response_text => Some (clean_text (soup_get_text w response_text))
  | inr _ => None
  end.

(** The client [setup_groq] builds from the key of the sidebar. *)
Definition client (w : World) : ChatGroq :=
  {| api_key := groq_api_key w;
     model := lit "mixtral-8x7b-32768";
     temperature := 3 # 10 |}.

(** The chunks [analyze_url] gets for the text of a page. *)
Definition splits_of (w : World) (content : pystr) : list pystr :=
  create_documents w 2000 200 separators content.

(** The run of the loop of [analyze_url] over these chunks. *)
Definition summary_loop (w : World) (content : pystr) : run (list pystr) :=
  summarize_from w (client w) (length (splits_of w content)) 0
    (splits_of w content) [].

(** The calls of [analyze_url] before the key is looked at. *)
Definition before_setup (u : pystr) : list event :=
  [StProgress 0; StEmpty; StatusText (lit "Scraping webpage...");
   RequestsGet u user_agent;
   ProgressBar (1 # 4); StatusText (lit "Processing content...");
   ProgressBar (1 # 2); StatusText (lit "Analyzing with Groq AI...")].

(** The prompts of the model calls of a trace, in order. *)
Definition model_calls (tr : list event) : list pystr :=
  flat_map (fun e => match e with ChainInvoke _ p => [p] | _ => [] end) tr.

(** The URLs fetched over HTTP in a trace, in order. *)
Definition http_fetches (tr : list event) : list pystr :=
  flat_map (fun e => match e with RequestsGet u _ => [u] | _ => [] end) tr.

(** The messages shown with [st.error] in a trace, in order. *)
Definition errors (tr : list event) : list pystr :=
  flat_map (fun e => match e with StError m => [m] | _ => [] end) tr.

(** The [st.markdown] calls of a trace, in order. *)
Definition markdowns (tr : list event) : list (pystr * bool) :=
  flat_map (fun e => match e with StMarkdown b h => [(b, h)] | _ => [] end) tr.

(** The download buttons of a trace: data, file name and MIME type. *)
Definition downloads (tr : list event) : list (pystr * pystr * pystr) :=
  flat_map
    (fun e => match e with
              | StDownloadButton _ d f m => [(d, f, m)]
              | _ => []
              end) tr.

(** The calls [analyze_url] can make: everything but the result widgets. *)
Definition backstage (e : event) : bool :=
  match e with
  | StWrite _ | StSuccess _ | StTabs _ | StSubheader _ | StMarkdown _ _
  | StDownloadButton _ _ _ _ | StTextArea _ _ _ => false
  | _ => true
  end.

(** A line begins with a character that [strip_bullet] removes. *)
Definition leading_glyph (line : pystr) : bool :=
  match line with
  | [] => false
  | c :: _ =>
      char_in bullet_chars c || char_in (lit "-") c || char_in (lit "*") c
  end.

(** ** The chunker of the specification *)

(** Modelled from the spec: the end of the latest occurrence of a separator
    in a window, counted from position [pos] of its first character (the
    splitter is a library class that [main.py] only configures and calls). *)
Fixpoint last_occurrence_end (sep : pystr) (pos : nat) (s : pystr)
  : option nat :=
  match s with
  | [] => None
  | _ :: rest =>
      match last_occurrence_end sep (S pos) rest with
      | Some e => Some e
      | None => if startswith sep s then Some (pos + length sep) else None
      end
  end.

(** Modelled from the spec: where a window is cut.  The separators are tried
    in priority order over the whole window; the first one that occurs fixes
    the cut after its latest occurrence; the empty separator (and an
    exhausted list) is the hard cut at the end of the window. *)
Fixpoint cut_point (seps : list pystr) (window : pystr) : nat :=
  match seps with
  | [] => length window
  | [] :: _ => length window
  | sep :: more =>
      match last_occurrence_end sep 0 window with
      | Some e => e
      | None => cut_point more window
      end
  end.

(** Modelled from the spec: the overlap window, [overlap] characters,
    bounded so that it never exceeds [max_size]. *)
Definition window (max_size overlap : nat) : nat := Nat.min overlap max_size.

(** Modelled from the spec: the greedy loop of the chunker, from position
    [start] of the text.  When what is left of the text is within
    [max_size], it is the last chunk.  Otherwise the chunk is the prefix of
    what is left up to the cut of its first [max_size] characters, and the
    next chunk begins one overlap window before the end of this one (at the
    start of the text, when fewer characters precede that end).  The
    specification gives the loop no other end: [fuel] bounds the number of
    chunks the model takes. *)
Fixpoint chunk_from (fuel max_size overlap : nat) (text : pystr)
    (start : nat) : list pystr :=
  match fuel with
  | O => []
  | S fuel' =>
      let rest := skipn start text in
      if length rest <=? max_size then [rest]
      else
        let cut := cut_point separators (firstn max_size rest) in
        firstn cut rest
          :: chunk_from fuel' max_size overlap text
               (start + cut - window max_size overlap)
  end.

(** Modelled from the spec: [chunk(text, max_size, overlap)] of section 4.3.
    The empty text gives no chunk; the model takes at most one chunk per
    character of the text. *)
Definition chunk (text : pystr) (max_size overlap : nat) : list pystr :=
  match text with
  | [] => []
  | _ :: _ => chunk_from (length text) max_size overlap text 0
  end.


(** Modelled from the spec: every chunk that has a successor is longer than
    the overlap window, so that its successor begins after it does. *)
Fixpoint advances (width : nat) (chunks : list pystr) : bool :=
  match chunks with
  | c :: (_ :: _) as rest => (width <? length c) && advances width rest
  | _ => true
  end.

(** ** Sample surroundings *)

(** A world whose page has the given text, whose splitter is [chunk] and
    whose model answers the [i]-th call with a one-bullet summary. *)
Definition sample_world (key page : pystr) : World :=
  {| groq_api_key := key;
     url := lit "https://example.com";
     requests_get := fun _ => inl (lit "<html>") ;
     soup_get_text := fun _ => page;
     create_documents := fun max_size overlap _ text =>
                           chunk text max_size overlap;
     groq_complete := fun _ i _ => inl (lit "* point " ++ str_of_nat i) |}.

(** ** Reading a text *)

(** [sep in s]: the separator occurs somewhere in the string. *)
Fixpoint occurs (sep s : pystr) : bool :=
  startswith sep s
  || match s with
     | [] => false
     | _ :: rest => occurs sep rest
     end.

(** The characters of a string that are not whitespace, in order. *)
Definition visible (s : pystr) : pystr :=
  filter (fun c => negb (isspace c)) s.

(** The fragments [scrape_content] joins: the stripped pieces of the stripped
    lines that are not empty. *)
Definition clean_fragments (text : pystr) : list pystr :=
  filter truthy
    (flat_map (fun line => map strip (split (lit "  ") line))
       (map strip (splitlines text))).

(** What a fragment of the cleaned text looks like: not empty, no whitespace
    at either end, no line boundary and no two spaces in a row. *)
Definition fragment_ok (f : pystr) : Prop :=
  f <> []
  /\ drop_leading isspace f = f
  /\ drop_trailing isspace f = f
  /\ forallb (fun c => negb (islinebreak c)) f = true
  /\ occurs (lit "  ") f = false.

(** ** Reading more of a trace *)

(** The calls the loop of [analyze_url] makes. *)
Definition loop_event (e : event) : bool :=
  match e with
  | ChainInvoke _ _ | ProgressBar _ | TimeSleep _ => true
  | _ => false
  end.

(** The pauses of a trace, in seconds, in order. *)
Definition sleeps (tr : list event) : list Q :=
  flat_map (fun e => match e with TimeSleep s => [s] | _ => [] end) tr.

(** The text areas of a trace: label, value and height. *)
Definition text_areas (tr : list event) : list (pystr * pystr * nat) :=
  flat_map
    (fun e => match e with StTextArea l v h => [(l, v, h)] | _ => [] end) tr.

(** The calls of a trace that the handler itself makes: messages and result
    widgets. *)
Definition handler_calls (tr : list event) : list event :=
  filter (fun e => negb (backstage e)) tr.

(** The status line is cleared somewhere in the trace. *)
Definition status_cleared (tr : list event) : bool :=
  existsb (fun e => match e with StatusEmpty => true | _ => false end) tr.

(** The progress bar is cleared somewhere in the trace. *)
Definition progress_cleared (tr : list event) : bool :=
  existsb (fun e => match e with ProgressEmpty => true | _ => false end) tr.

(** ** The page around the handler *)


(** The style sheet given to the first [st.markdown]. *)
Definition custom_css : pystr :=
  nl
    ++ lit "    <style>" ++ nl
    ++ lit "    .main {" ++ nl
    ++ lit "        background-color: #0E1117;" ++ nl
    ++ lit "        color: white;" ++ nl
    ++ lit "    }" ++ nl ++ nl
    ++ lit "    .content-box {" ++ nl
    ++ lit "        background-color: #1E1E1E;" ++ nl
    ++ lit "        border: 1px solid #333;" ++ nl
    ++ lit "        border-radius: 8px;" ++ nl
    ++ lit "        padding: 20px;" ++ nl
    ++ lit "        margin: 10px 0;" ++ nl
    ++ lit "    }" ++ nl ++ nl
    ++ lit "    .bullet-point {" ++ nl
    ++ lit "        background-color: #2C2C2C;" ++ nl
    ++ lit "        border-left: 4px solid #FF4B4B;" ++ nl
    ++ lit "        padding: 10px 15px;" ++ nl
    ++ lit "        margin: 8px 0;" ++ nl
    ++ lit "        border-radius: 4px;" ++ nl
    ++ lit "    }" ++ nl
    ++ lit "    </style>"
    ++ nl.




(** The chunk that a prompt holds between [Text: ] and its closing lines. *)
Definition prompt_chunk (prompt : pystr) : pystr :=
  firstn (length prompt - length (summary_prompt []))
    (skipn (length (summary_prompt [])
            - length (nl ++ nl ++ indent ++ lit "Key Points:"))
       prompt).

(** A world whose splitter gives one chunk per line of the text and whose
    model answers each call with a line about the chunk it finds in the
    prompt, but for the call of index [failing], which raises. *)
Definition lines_world (page : pystr) (failing : option nat) : World :=
  {| groq_api_key := lit "key";
     url := lit "https://example.com";
     requests_get := fun _ => inl (lit "<html>");
     soup_get_text := fun _ => page;
     create_documents := fun _ _ _ text => split nl text;
     groq_complete := fun _ i prompt =>
       if match failing with Some k => i =? k | None => false end
       then inr (lit "rate limit")
       else inl (lit "* about " ++ prompt_chunk prompt) |}.

(** A page of three lines. *)
Definition three_topics : pystr :=
  lit "first topic" ++ nl ++ lit "second topic" ++ nl ++ lit "third topic".

(** A world whose request fails. *)
Definition offline_world : World :=
  {| groq_api_key := lit "key";
     url := lit "https://example.com";
     requests_get := fun _ => inr (lit "404 Client Error");
     soup_get_text := fun _ => [];
     create_documents := fun max_size overlap _ text =>
                           chunk text max_size overlap;
     groq_complete := fun _ i _ => inl (lit "* point " ++ str_of_nat i) |}.

(** * Properties *)

(** ** Strings *)

Example split_on_newline :
  split nl (lit "a" ++ nl ++ nl ++ lit "b") = [lit "a"; []; lit "b"].
Proof. reflexivity. Qed.

Example split_on_two_spaces :
  split (lit "  ") (lit "a   b") = [lit "a"; lit " b"].
Proof. reflexivity. Qed.

Example splitlines_crlf :
  splitlines (lit "a" ++ [13%N; 10%N] ++ lit "b" ++ nl) = [lit "a"; lit "b"].
Proof. reflexivity. Qed.

Example clean_text_drops_blank_fragments :
  clean_text (lit " a  b " ++ nl ++ lit "   " ++ nl ++ lit "c") =
  lit "a" ++ nl ++ lit "b" ++ nl ++ lit "c".
Proof. reflexivity. Qed.

Lemma drop_leading_head (p : N -> bool) (c : N) (s : pystr) :
  p c = false -> drop_leading p (c :: s) = c :: s.
Proof. intros H. simpl. now rewrite H. Qed.

Lemma drop_leading_length (p : N -> bool) (s : pystr) :
  length (drop_leading p s) <= length s.
Proof.
  induction s as [|c s IH]; simpl; [lia|].
  destruct (p c); simpl; lia.
Qed.

Lemma drop_leading_strict (p : N -> bool) (c : N) (s : pystr) :
  p c = true -> length (drop_leading p (c :: s)) < length (c :: s).
Proof.
  intros H. simpl. rewrite H.
  pose proof (drop_leading_length p s). lia.
Qed.

Lemma drop_trailing_length (p : N -> bool) (s : pystr) :
  length (drop_trailing p s) <= length s.
Proof.
  induction s as [|c s IH]; simpl; [lia|].
  destruct (drop_trailing p s); [destruct (p c)|]; simpl in *; lia.
Qed.

Lemma drop_trailing_head (p : N -> bool) (c : N) (s : pystr) :
  p c = false -> drop_trailing p (c :: s) = c :: drop_trailing p s.
Proof.
  intros H. simpl. destruct (drop_trailing p s); [now rewrite H|reflexivity].
Qed.

Lemma drop_trailing_idem (p : N -> bool) (s : pystr) :
  drop_trailing p (drop_trailing p s) = drop_trailing p s.
Proof.
  induction s as [|c s IH]; [reflexivity|].
  simpl. destruct (drop_trailing p s) as [|d kept] eqn:E.
  - destruct (p c) eqn:Hc; simpl; [reflexivity|now rewrite Hc].
  - change (drop_trailing p (c :: d :: kept) = c :: d :: kept).
    simpl. simpl in IH. destruct (drop_trailing p kept) eqn:E2.
    + destruct (p d); [discriminate|]. injection IH as <-. reflexivity.
    + injection IH as ->. reflexivity.
Qed.

(** After [strip], a string begins with no whitespace. *)
Lemma strip_head (s : pystr) :
  match strip s with
  | [] => True
  | c :: _ => isspace c = false
  end.
Proof.
  unfold strip. induction s as [|c s IH]; simpl; [exact I|].
  destruct (isspace c) eqn:Hc; [exact IH|].
  change (match drop_trailing isspace (c :: s) with
          | [] => True | d :: _ => isspace d = false end).
  rewrite drop_trailing_head by exact Hc. exact Hc.
Qed.

Lemma strip_idem (s : pystr) : strip (strip s) = strip s.
Proof.
  pose proof (strip_head s) as H.
  unfold strip at 1. destruct (strip s) as [|c t] eqn:E; [reflexivity|].
  rewrite drop_leading_head by exact H.
  rewrite <- E. unfold strip. apply drop_trailing_idem.
Qed.

Lemma strip_length (s : pystr) : length (strip s) <= length s.
Proof.
  unfold strip.
  pose proof (drop_trailing_length isspace (drop_leading isspace s)).
  pose proof (drop_leading_length isspace s). lia.
Qed.

Lemma lstrip_length (chars s : pystr) : length (lstrip chars s) <= length s.
Proof. apply drop_leading_length. Qed.

(** [lstrip] leaves alone a string that begins with none of its characters. *)
Lemma lstrip_clean (chars s : pystr) :
  match s with [] => True | c :: _ => char_in chars c = false end ->
  lstrip chars s = s.
Proof.
  destruct s as [|c s]; [reflexivity|]. intros H.
  apply drop_leading_head. exact H.
Qed.

(** ** The presenter *)

Lemma fold_format_line (lines : list pystr) (html : pystr) :
  fold_left format_line lines html =
  html ++ concat
    (map (fun line => lit "<div class='bullet-point'>"
                        ++ strip_bullet line ++ lit "</div>")
       (filter truthy (map strip lines))).
Proof.
  revert html. induction lines as [|line lines IH]; intros html.
  - simpl. now rewrite app_nil_r.
  - cbn [fold_left map filter]. rewrite IH. unfold format_line.
    destruct (truthy (strip line)); [|reflexivity].
    cbn [map concat]. now rewrite <- !app_assoc.
Qed.

(** Every line of a summary that is not blank becomes one block of its own,
    in order, inside one box. *)
Lemma format_bullet_points_blocks (text : pystr) :
  format_bullet_points text =
  lit "<div class='content-box'>"
    ++ concat
         (map (fun line => lit "<div class='bullet-point'>"
                             ++ strip_bullet line ++ lit "</div>")
            (filter truthy (map strip (split nl (strip text)))))
    ++ lit "</div>".
Proof.
  unfold format_bullet_points. rewrite fold_format_line.
  now rewrite <- app_assoc.
Qed.

Example format_bullet_points_star_and_dash :
  format_bullet_points (lit "* one" ++ nl ++ nl ++ lit "  - two ") =
  lit "<div class='content-box'><div class='bullet-point'>one</div><div class='bullet-point'>two</div></div>".
Proof. reflexivity. Qed.

(** C3.  The presenter does not strip a leading bullet glyph U+2022: the set
    given to the first [lstrip] holds the code points U+00E2, U+20AC and
    U+00A2 instead, so the summary line [U+2022 Alpha] is wrapped with its
    glyph still in front. *)
Theorem format_bullet_points_keeps_bullet_glyph :
  format_bullet_points (bullet :: lit " Alpha") =
  lit "<div class='content-box'><div class='bullet-point'>"
    ++ bullet :: lit " Alpha" ++ lit "</div></div>".
Proof. reflexivity. Qed.

(** C4, as stated, fails: on the line [*-x] a second pass strips the dash
    that the first pass left in front. *)
Lemma strip_bullet_not_idempotent :
  ~ (forall line : pystr,
        strip_bullet (strip_bullet line) = strip_bullet line).
Proof.
  intros H. specialize (H (lit "*-x")). vm_compute in H. discriminate H.
Qed.

Lemma strip_bullet_fixed (line : pystr) :
  leading_glyph (strip line) = false ->
  strip_bullet (strip line) = strip line.
Proof.
  intros H. unfold strip_bullet.
  assert (Hc : match strip line with
               | [] => True
               | c :: _ => char_in bullet_chars c = false
                           /\ char_in (lit "-") c = false
                           /\ char_in (lit "*") c = false
               end).
  { unfold leading_glyph in H. destruct (strip line) as [|c t]; [exact I|].
    apply orb_false_iff in H as [H H3]. apply orb_false_iff in H as [H1 H2].
    auto. }
  rewrite (lstrip_clean bullet_chars), (lstrip_clean (lit "-")),
    (lstrip_clean (lit "*")); try apply strip_idem;
    destruct (strip line); tauto.
Qed.

(** C4, amended.  When the result of one pass begins with none of the
    characters the pass strips, a second pass returns it unchanged. *)
Theorem strip_bullet_idempotent_on_clean (line : pystr) :
  leading_glyph (strip_bullet line) = false ->
  strip_bullet (strip_bullet line) = strip_bullet line.
Proof.
  intros H. unfold strip_bullet at 2 3.
  apply strip_bullet_fixed. exact H.
Qed.

Lemma strip_bullet_idempotent_on_clean_witness :
  leading_glyph (strip_bullet (lit "* point")) = false
  /\ strip_bullet (strip_bullet (lit "* point")) = strip_bullet (lit "* point").
Proof.
  split; [reflexivity|].
  apply (strip_bullet_idempotent_on_clean (lit "* point")). reflexivity.
Defined.

(** The condition of the amended C4 is also necessary: a result that begins
    with a stripped character loses it in the next pass. *)
Lemma strip_bullet_shrinks (line : pystr) :
  leading_glyph line = true ->
  length (strip_bullet line) < length line.
Proof.
  unfold leading_glyph, strip_bullet. destruct line as [|c t]; [discriminate|].
  intros H.
  pose proof (strip_length
    (lstrip (lit "*") (lstrip (lit "-") (lstrip bullet_chars (c :: t)))))
    as L1.
  pose proof (lstrip_length (lit "*")
    (lstrip (lit "-") (lstrip bullet_chars (c :: t)))) as L2.
  pose proof (lstrip_length (lit "-") (lstrip bullet_chars (c :: t))) as L3.
  destruct (char_in bullet_chars c) eqn:G1.
  { pose proof (drop_leading_strict _ c t G1). unfold lstrip in *. lia. }
  rewrite (lstrip_clean bullet_chars (c :: t)) in * by exact G1.
  destruct (char_in (lit "-") c) eqn:G2.
  { pose proof (drop_leading_strict _ c t G2). unfold lstrip in *. lia. }
  rewrite (lstrip_clean (lit "-") (c :: t)) in * by exact G2.
  cbn [orb] in H.
  pose proof (drop_leading_strict _ c t H). unfold lstrip in *. lia.
Qed.

(** ** The chunker of the specification *)

Example chunk_with_overlap :
  chunk (lit "aaa bbb ccc dd. ee") 8 3 =
  [lit "aaa bbb "; lit "bb ccc "; lit "cc dd. "; lit "d. ee"].
Proof. reflexivity. Qed.

Lemma startswith_length (sep s : pystr) :
  startswith sep s = true -> length sep <= length s.
Proof.
  revert s. induction sep as [|a sep IH]; intros [|b s] H; simpl in *;
    try lia; try discriminate.
  apply andb_true_iff in H as [_ H]. apply IH in H. lia.
Qed.

Lemma last_occurrence_end_bounds (sep : pystr) (pos : nat) (s : pystr)
    (e : nat) :
  last_occurrence_end sep pos s = Some e ->
  pos + length sep <= e /\ e <= pos + length s.
Proof.
  revert pos. induction s as [|c s IH]; intros pos H; [discriminate|].
  cbn [last_occurrence_end] in H.
  destruct (last_occurrence_end sep (S pos) s) as [e'|] eqn:E.
  - injection H as <-. apply IH in E. cbn [length]. lia.
  - destruct (startswith sep (c :: s)) eqn:P; [|discriminate].
    injection H as <-. apply startswith_length in P. lia.
Qed.

(** The cut lies inside the window. *)
Lemma cut_point_le (seps : list pystr) (window : pystr) :
  cut_point seps window <= length window.
Proof.
  induction seps as [|sep more IH]; [simpl; lia|].
  destruct sep as [|a sep]; [simpl; lia|].
  cbn [cut_point].
  destruct (last_occurrence_end (a :: sep) 0 window) as [e|] eqn:E;
    [|exact IH].
  apply last_occurrence_end_bounds in E. lia.
Qed.

(** The cut of a window that is not empty takes at least one character. *)
Lemma cut_point_pos (seps : list pystr) (window : pystr) :
  1 <= length window -> 1 <= cut_point seps window.
Proof.
  intros Hw. induction seps as [|sep more IH]; [exact Hw|].
  destruct sep as [|a sep]; [exact Hw|].
  cbn [cut_point].
  destruct (last_occurrence_end (a :: sep) 0 window) as [e|] eqn:E;
    [|exact IH].
  apply last_occurrence_end_bounds in E. cbn [length] in E. lia.
Qed.

Lemma chunk_from_bound (fuel max_size overlap : nat) (text : pystr)
    (start : nat) :
  Forall (fun c => length c <= max_size)
    (chunk_from fuel max_size overlap text start).
Proof.
  revert start. induction fuel as [|fuel IH]; intros start; [constructor|].
  cbn [chunk_from]. destruct (length (skipn start text) <=? max_size) eqn:E.
  - apply Nat.leb_le in E. constructor; [exact E|constructor].
  - constructor; [|apply IH].
    rewrite length_firstn.
    pose proof (cut_point_le separators
                  (firstn max_size (skipn start text))) as Hc.
    rewrite length_firstn in Hc. lia.
Qed.

Lemma chunk_from_step (fuel max_size overlap : nat) (text : pystr)
    (start : nat) :
  chunk_from (S fuel) max_size overlap text start =
  if length (skipn start text) <=? max_size then [skipn start text]
  else
    firstn (cut_point separators (firstn max_size (skipn start text)))
      (skipn start text)
      :: chunk_from fuel max_size overlap text
           (start + cut_point separators (firstn max_size (skipn start text))
            - window max_size overlap).
Proof. reflexivity. Qed.

(** Where every chunk that has a successor is longer than the overlap
    window, the fuel of one chunk per character left is never used up: the
    chunks from [start] on, without their overlap windows, are the text from
    [start] on.  The first of them is the last chunk or longer than the
    window. *)
Lemma chunk_from_reassemble (max_size overlap width : nat) (text : pystr)
    (fuel : nat) :
  width = window max_size overlap ->
  0 < max_size ->
  forall start,
    start < length text -> length text - start <= fuel ->
    advances width (chunk_from fuel max_size overlap text start) = true ->
    exists c rest,
      chunk_from fuel max_size overlap text start = c :: rest
      /\ c ++ concat (map (skipn width) rest) = skipn start text
      /\ (width + start <= length text -> width <= length c).
Proof.
  intros Hw Hm.
  induction fuel as [|fuel IH]; intros start Hs Hf Ha; [lia|].
  rewrite chunk_from_step in *. rewrite <- Hw in *.
  pose proof (length_skipn start text) as Hrest.
  destruct (length (skipn start text) <=? max_size) eqn:E.
  { exists (skipn start text), []. cbn [map concat].
    rewrite app_nil_r. repeat split. lia. }
  apply Nat.leb_gt in E.
  set (rest := skipn start text) in *.
  set (cut := cut_point separators (firstn max_size rest)) in *.
  assert (Hcut : 1 <= cut <= max_size).
  { pose proof (cut_point_le separators (firstn max_size rest)) as Hle.
    pose proof (cut_point_pos separators (firstn max_size rest)) as Hpos.
    rewrite length_firstn in Hle, Hpos. subst cut. lia. }
  assert (Hlen : length (firstn cut rest) = cut)
    by (rewrite length_firstn; lia).
  destruct fuel as [|fuel']; [lia|].
  destruct (chunk_from (S fuel') max_size overlap text (start + cut - width))
    as [|c' cs'] eqn:Enext.
  { rewrite chunk_from_step in Enext.
    destruct (length (skipn (start + cut - width) text) <=? max_size);
      discriminate. }
  cbn [advances] in Ha. apply andb_true_iff in Ha as [Hov Ha].
  apply Nat.ltb_lt in Hov. rewrite Hlen in Hov.
  destruct (IH (start + cut - width)) as (c'' & cs'' & Ec & Hcat & Hc').
  - lia.
  - lia.
  - now rewrite Enext.
  - rewrite Enext in Ec. injection Ec as <- <-.
    exists (firstn cut rest), (c' :: cs'). split; [reflexivity|].
    split; [|intros _; lia].
    cbn [map concat].
    assert (Hdrop : skipn width c' ++ concat (map (skipn width) cs')
                    = skipn (start + cut) text).
    { transitivity (skipn width (c' ++ concat (map (skipn width) cs'))).
      - rewrite skipn_app.
        replace (width - length c') with 0
          by (specialize (Hc' ltac:(lia)); lia).
        reflexivity.
      - rewrite Hcat, skipn_skipn. f_equal. lia. }
    rewrite Hdrop. unfold rest.
    replace (start + cut) with (cut + start) by lia.
    rewrite <- skipn_skipn. apply firstn_skipn.
Qed.



(** The same with the sizes [analyze_url] uses: a title line followed by a
    long run of characters without a separator.  The first chunk is the
    title line, 6 characters, and the next chunk begins 200 characters
    before its end: at the start of the text again. *)
Lemma title_line_cut :
  cut_point separators
    (firstn 2000 (lit "Title" ++ nl ++ repeat 120%N 2100)) = 6.
Proof. vm_compute. reflexivity. Qed.

Example title_line_stuck (fuel : nat) :
  chunk_from fuel 2000 200 (lit "Title" ++ nl ++ repeat 120%N 2100) 0
  = repeat (lit "Title" ++ nl) fuel.
Proof.
  induction fuel as [|fuel IH]; [reflexivity|].
  rewrite chunk_from_step.
  change (skipn 0 (lit "Title" ++ nl ++ repeat 120%N 2100))
    with (lit "Title" ++ nl ++ repeat 120%N 2100).
  rewrite title_line_cut.
  replace (length (lit "Title" ++ nl ++ repeat 120%N 2100) <=? 2000)
    with false by (vm_compute; reflexivity).
  change (0 + 6 - window 2000 200) with 0. rewrite IH. reflexivity.
Qed.




(** The chunks of the witness, the windows they share, and the text they
    give back. *)
Example chunk_coverage_by_hand :
  chunk (lit "aaa bbb ccc dd. ee") 8 3
  = [lit "aaa bbb "; lit "bb ccc "; lit "cc dd. "; lit "d. ee"]
  /\ lit "aaa bbb " ++ lit "ccc " ++ lit "dd. " ++ lit "ee"
     = lit "aaa bbb ccc dd. ee".
Proof. split; reflexivity. Qed.

(** Without overlap the chunks always advance, and the chunks of any text
    concatenated are the text. *)
Lemma chunk_from_advances_without_overlap (fuel max_size : nat)
    (text : pystr) :
  0 < max_size ->
  forall start,
    advances 0 (chunk_from fuel max_size 0 text start) = true.
Proof.
  intros Hm. induction fuel as [|fuel IH]; intros start; [reflexivity|].
  rewrite chunk_from_step.
  destruct (length (skipn start text) <=? max_size) eqn:E; [reflexivity|].
  apply Nat.leb_gt in E.
  set (cut := cut_point separators (firstn max_size (skipn start text))).
  assert (Hcut : 1 <= cut).
  { apply cut_point_pos. rewrite length_firstn. lia. }
  pose proof (IH (start + cut - window max_size 0)) as Hnext.
  destruct (chunk_from fuel max_size 0 text (start + cut - window max_size 0))
    as [|c' cs']; [reflexivity|].
  change ((0 <? length (firstn cut (skipn start text)))
          && advances 0 (c' :: cs') = true).
  rewrite Hnext, andb_true_r.
  apply Nat.ltb_lt. rewrite length_firstn.
  pose proof (cut_point_le separators (firstn max_size (skipn start text)))
    as Hle.
  rewrite length_firstn in Hle. fold cut in Hle. lia.
Qed.

Lemma chunk_coverage_without_overlap (text : pystr) (max_size : nat) :
  0 < max_size -> concat (chunk text max_size 0) = text.
Proof.
  intros Hm. destruct text as [|c text]; [reflexivity|].
  unfold chunk.
  destruct (chunk_from_reassemble max_size 0 0 (c :: text)
              (length (c :: text)) eq_refl Hm 0)
    as (c0 & rest & E & Hcat & _).
  - cbn [length]. lia.
  - lia.
  - now apply chunk_from_advances_without_overlap.
  - rewrite E. cbn [concat].
    transitivity (c0 ++ concat (map (skipn 0) rest)); [|exact Hcat].
    f_equal. clear. induction rest as [|r rest IH]; [reflexivity|].
    cbn [map concat skipn]. now rewrite IH.
Qed.

(** C6.  Chunk size bound: no chunk is longer than [max_size].  The
    separator list ends with the empty separator, the hard cut, so no run of
    characters forces a longer chunk. *)
Theorem chunk_size_bound (text : pystr) (max_size overlap : nat) :
  Forall (fun c => length c <= max_size) (chunk text max_size overlap).
Proof.
  destruct text as [|c text]; [constructor|]. apply chunk_from_bound.
Qed.

(** C7.  Chunk count: a text that is not empty and no longer than
    [max_size] gives exactly one chunk, the text itself; the empty text
    gives none. *)
Theorem chunk_count (text : pystr) (max_size overlap : nat) :
  (text <> [] -> length text <= max_size ->
   chunk text max_size overlap = [text])
  /\ chunk [] max_size overlap = [].
Proof.
  split; [|reflexivity]. intros Hne Hlen.
  destruct text as [|c text]; [contradiction|].
  unfold chunk. cbn [length chunk_from skipn].
  apply Nat.leb_le in Hlen. cbn [length] in Hlen. now rewrite Hlen.
Qed.

Lemma chunk_count_witness :
  lit "short text" <> []
  /\ length (lit "short text") <= 2000
  /\ chunk (lit "short text") 2000 200 = [lit "short text"]
  /\ chunk [] 2000 200 = [].
Proof.
  assert (Hne : lit "short text" <> []) by discriminate.
  assert (Hlen : length (lit "short text") <= 2000) by (simpl; lia).
  exact (conj Hne (conj Hlen
           (conj (proj1 (chunk_count (lit "short text") 2000 200) Hne Hlen)
                 (proj2 (chunk_count (lit "short text") 2000 200))))).
Defined.

(** ** The pipeline *)

(** A page of one chunk: one model call, one section. *)
Example one_chunk_one_section :
  let w := sample_world (lit "key") (lit "hello world") in
  model_calls (trace (on_analyze w)) = [summary_prompt (lit "hello world")]
  /\ markdowns (trace (on_analyze w))
     = [(lit "#### Section 1", false);
        (lit "<div class='content-box'><div class='bullet-point'>point 0</div></div>",
         true)].
Proof. split; reflexivity. Qed.

(** A model call that raises: the error is shown, no summaries are returned,
    and the handler still ends with its completion message. *)
Example failed_model_call :
  let w :=
    {| groq_api_key := lit "key";
       url := lit "https://example.com";
       requests_get := fun _ => inl (lit "<html>");
       soup_get_text := fun _ => lit "hello world";
       create_documents := fun max_size overlap _ text =>
                             chunk text max_size overlap;
       groq_complete := fun _ _ _ => inr (lit "rate limit") |} in
  result (analyze_url w (url w)) = Returned None
  /\ errors (trace (on_analyze w)) = [lit "Error: rate limit"]
  /\ markdowns (trace (on_analyze w)) = [].
Proof. repeat split. Qed.

(** [scrape_content] always returns: the cleaned text after one request, or
    [None] after the request failed and the error was shown. *)
Lemma scrape_content_run (w : World) (u : pystr) :
  scrape_content w u =
  match requests_get w u with
  | inl response_text =>
      ([RequestsGet u user_agent],
       Returned (Some (clean_text (soup_get_text w response_text))))
  | inr e =>
      ([RequestsGet u user_agent;
        StError (lit "Error scraping content: " ++ e)],
       Returned None)
  end.
Proof.
  unfold scrape_content. destruct (requests_get w u); reflexivity.
Qed.

Lemma scrape_content_result (w : World) (u : pystr) :
  result (scrape_content w u) = Returned (extracted_text w u).
Proof.
  rewrite scrape_content_run. unfold extracted_text.
  destruct (requests_get w u); reflexivity.
Qed.

Lemma setup_groq_run (w : World) :
  setup_groq w =
  if truthy (groq_api_key w) then ([], Returned (client w))
  else ([StError (lit "Please enter your Groq API key!")], Stopped).
Proof.
  unfold setup_groq. destruct (truthy (groq_api_key w)); reflexivity.
Qed.

(** The answers of the model to the calls of the loop, from index [i] on. *)
Lemma summarize_from_run (w : World) (llm : ChatGroq) (total : nat)
    (splits : list pystr) :
  forall (i : nat) (acc : list pystr),
    let r := summarize_from w llm total i splits acc in
    forallb backstage (trace r) = true
    /\ errors (trace r) = []
    /\ result r <> Stopped
    /\ (forall sums, result r = Returned sums ->
        exists new,
          sums = acc ++ new
          /\ map inl new
             = map (fun e => groq_complete w llm (fst e)
                               (summary_prompt (snd e)))
                 (enumerate i splits)
          /\ model_calls (trace r) = map summary_prompt splits).
Proof.
  induction splits as [|split rest IH]; intros i acc.
  - cbn. repeat split; try discriminate.
    intros sums [= <-]. exists []. now rewrite app_nil_r.
  - cbn zeta. cbn [summarize_from]. unfold chain_invoke.
    destruct (groq_complete w llm i (summary_prompt split)) as [s|e] eqn:G.
    + specialize (IH (S i) (acc ++ [s])). cbn zeta in IH.
      unfold trace, result in *.
      destruct IH as (Hb & He & Hs & Hr).
      unfold bind, emit, ret. cbn [fst snd app].
      split; [exact Hb|]. split; [exact He|]. split; [exact Hs|].
      intros sums Hsums. destruct (Hr sums Hsums) as (new & -> & Hm & Hc).
      exists (s :: new). rewrite <- app_assoc.
      split; [reflexivity|]. split.
      * cbn [map enumerate fst snd]. now rewrite G, Hm.
      * cbn [map]. rewrite <- Hc. reflexivity.
    + cbn. repeat split; discriminate.
Qed.

(** The request failed: the error is shown and [analyze_url] returns
    [None]. *)
Lemma analyze_url_fetch_error (w : World) (u e : pystr) :
  requests_get w u = inr e ->
  analyze_url w u =
  ([StProgress 0; StEmpty; StatusText (lit "Scraping webpage...");
    RequestsGet u user_agent;
    StError (lit "Error scraping content: " ++ e)],
   Returned None).
Proof.
  intros H. unfold analyze_url. rewrite scrape_content_run, H. reflexivity.
Qed.

(** The page has no text: [analyze_url] returns [None] right after the
    request, and shows nothing. *)
Lemma analyze_url_no_content (w : World) (u : pystr) :
  extracted_text w u = Some [] ->
  analyze_url w u =
  ([StProgress 0; StEmpty; StatusText (lit "Scraping webpage...");
    RequestsGet u user_agent],
   Returned None).
Proof.
  unfold extracted_text. intros H. unfold analyze_url.
  rewrite scrape_content_run.
  destruct (requests_get w u) as [html|e]; [|discriminate].
  injection H as H. rewrite H. reflexivity.
Qed.

(** The page has text and the key is missing: the script is stopped after
    scraping and splitting, before any model call. *)
Lemma analyze_url_no_key (w : World) (u content : pystr) :
  extracted_text w u = Some content -> content <> [] ->
  groq_api_key w = [] ->
  analyze_url w u =
  (before_setup u ++ [StError (lit "Please enter your Groq API key!")],
   Stopped).
Proof.
  unfold extracted_text. intros H Hne Hkey. unfold analyze_url.
  rewrite scrape_content_run, setup_groq_run, Hkey.
  destruct (requests_get w u) as [html|e]; [|discriminate].
  injection H as H. rewrite H.
  destruct content as [|c content]; [contradiction|]. reflexivity.
Qed.

(** The page has text and a key was given: the loop decides.  When every
    call of the model answers, the summaries are returned; when one raises,
    the error is shown and [None] is returned. *)
Lemma analyze_url_with_key (w : World) (u content : pystr) :
  extracted_text w u = Some content -> content <> [] ->
  groq_api_key w <> [] ->
  analyze_url w u =
  match result (summary_loop w content) with
  | Returned all_summaries =>
      (before_setup u ++ trace (summary_loop w content)
         ++ [StatusEmpty; ProgressEmpty],
       Returned (Some all_summaries))
  | Raised e =>
      (before_setup u ++ trace (summary_loop w content)
         ++ [StError (lit "Error: " ++ e)],
       Returned None)
  | Stopped => (before_setup u ++ trace (summary_loop w content), Stopped)
  end.
Proof.
  unfold extracted_text. intros H Hne Hkey. unfold analyze_url.
  rewrite scrape_content_run, setup_groq_run.
  destruct (requests_get w u) as [html|e]; [|discriminate].
  injection H as H. rewrite H.
  destruct content as [|c content]; [contradiction|].
  destruct (groq_api_key w) as [|k key] eqn:K; [contradiction|].
  cbn [truthy]. unfold summary_loop, splits_of.
  destruct (summarize_from w (client w)
              (length (create_documents w 2000 200 separators (c :: content)))
              0 (create_documents w 2000 200 separators (c :: content)) [])
    as [tr out] eqn:R.
  unfold bind, try_except, emit, ret, trace, result. cbn [fst snd app].
  rewrite R. cbn [fst snd].
  destruct out; cbn [fst snd app]; rewrite ?app_nil_r, <- ?app_assoc;
    reflexivity.
Qed.

(** The four ways a run of [analyze_url] can go. *)
Lemma analyze_url_cases (w : World) (u : pystr) :
  (exists e, requests_get w u = inr e)
  \/ extracted_text w u = Some []
  \/ (exists content, extracted_text w u = Some content /\ content <> []
                      /\ groq_api_key w = [])
  \/ (exists content, extracted_text w u = Some content /\ content <> []
                      /\ groq_api_key w <> []).
Proof.
  unfold extracted_text. destruct (requests_get w u) as [html|e].
  - right. destruct (clean_text (soup_get_text w html)) as [|c t] eqn:E.
    + left. reflexivity.
    + right. destruct (groq_api_key w) as [|k key] eqn:K.
      * left. exists (c :: t). repeat split; congruence.
      * right. exists (c :: t). repeat split; congruence.
  - left. exists e. reflexivity.
Qed.

(** Splits a goal about [analyze_url w u] along [analyze_url_cases], and
    replaces the run by what it is in each case. *)
Tactic Notation "analyze_url_by_cases" constr(w) constr(u)
    "as" ident(e) ident(content) ident(H) ident(Hne) ident(K) :=
  destruct (analyze_url_cases w u)
    as [[e H]|[H|[(content & H & Hne & K)|(content & H & Hne & K)]]];
  [ rewrite (analyze_url_fetch_error w u e H) in *
  | rewrite (analyze_url_no_content w u H) in *
  | rewrite (analyze_url_no_key w u content H Hne K) in *
  | rewrite (analyze_url_with_key w u content H Hne K) in * ].

(** What the loop of a run does, see [summarize_from_run]. *)
Lemma summary_loop_run (w : World) (content : pystr) :
  forallb backstage (trace (summary_loop w content)) = true
  /\ errors (trace (summary_loop w content)) = []
  /\ result (summary_loop w content) <> Stopped
  /\ (forall sums,
        result (summary_loop w content) = Returned sums ->
        map inl sums
        = map (fun e => groq_complete w (client w) (fst e)
                          (summary_prompt (snd e)))
            (enumerate 0 (splits_of w content))
        /\ model_calls (trace (summary_loop w content))
           = map summary_prompt (splits_of w content)).
Proof.
  destruct (summarize_from_run w (client w) (length (splits_of w content))
              (splits_of w content) 0 []) as (Hb & He & Hs & Hr).
  fold (summary_loop w content) in Hb, He, Hs, Hr.
  split; [exact Hb|]. split; [exact He|]. split; [exact Hs|].
  intros sums R. destruct (Hr sums R) as (new & -> & Hm & Hc).
  split; assumption.
Qed.

(** [analyze_url] makes no call to a result widget, and no exception leaves
    it. *)
Lemma analyze_url_backstage (w : World) (u : pystr) :
  forallb backstage (trace (analyze_url w u)) = true
  /\ forall e, result (analyze_url w u) <> Raised e.
Proof.
  analyze_url_by_cases w u as e content H Hne K;
    try (split; [reflexivity|discriminate]).
  destruct (summary_loop_run w content) as (Hb & _ & _ & _).
  destruct (result (summary_loop w content));
    unfold trace in *; cbn [fst snd]; (split; [|discriminate]);
    rewrite ?forallb_app, Hb; reflexivity.
Qed.

(** The script is stopped inside [analyze_url] exactly when the page has
    text and the key is missing. *)
Lemma analyze_url_stopped (w : World) (u : pystr) :
  result (analyze_url w u) = Stopped <->
  groq_api_key w = []
  /\ exists content, extracted_text w u = Some content /\ content <> [].
Proof.
  split.
  - intros S. analyze_url_by_cases w u as e content H Hne K;
      try discriminate.
    + split; [exact K|]. exists content. split; assumption.
    + destruct (summary_loop_run w content) as (_ & _ & Hs & _).
      destruct (result (summary_loop w content));
        try discriminate. contradiction.
  - intros (K & content & H & Hne).
    now rewrite (analyze_url_no_key w u content H Hne K).
Qed.

(** The button handler in terms of the run of [analyze_url]. *)
Lemma on_analyze_run (w : World) :
  url w <> [] ->
  on_analyze w =
  match result (analyze_url w (url w)) with
  | Returned (Some (s :: rest)) =>
      (StWrite (lit "Starting analysis...")
         :: trace (analyze_url w (url w)) ++ show_results (s :: rest)
         ++ [StSuccess (lit "Analysis complete!")],
       Returned tt)
  | Returned _ =>
      (StWrite (lit "Starting analysis...")
         :: trace (analyze_url w (url w))
         ++ [StSuccess (lit "Analysis complete!")],
       Returned tt)
  | Raised e =>
      (StWrite (lit "Starting analysis...") :: trace (analyze_url w (url w)),
       Raised e)
  | Stopped =>
      (StWrite (lit "Starting analysis...") :: trace (analyze_url w (url w)),
       Stopped)
  end.
Proof.
  intros Hu. unfold on_analyze.
  destruct (url w) as [|c u] eqn:U; [contradiction|]. cbn [truthy].
  destruct (analyze_url w (c :: u)) as [tr out].
  unfold bind, emit, ret, trace, result. cbn [fst snd app].
  destruct out as [[[|s rest]|]| |]; cbn [fst snd app];
    rewrite ?app_nil_r, <- ?app_assoc; reflexivity.
Qed.

Lemma flat_map_backstage {A : Type} (f : event -> list A) (tr : list event) :
  (forall e, backstage e = true -> f e = []) ->
  forallb backstage tr = true -> flat_map f tr = [].
Proof.
  intros Hf. induction tr as [|e tr IH]; [reflexivity|].
  cbn [forallb flat_map]. intros H. apply andb_true_iff in H as [He Ht].
  now rewrite (Hf e He), IH.
Qed.

Lemma markdowns_backstage (tr : list event) :
  forallb backstage tr = true -> markdowns tr = [].
Proof.
  apply flat_map_backstage. intros [] H; try reflexivity; discriminate.
Qed.

Lemma downloads_backstage (tr : list event) :
  forallb backstage tr = true -> downloads tr = [].
Proof.
  apply flat_map_backstage. intros [] H; try reflexivity; discriminate.
Qed.

Lemma markdowns_show_section (i : nat) (entries : list pystr) :
  markdowns (flat_map show_section (enumerate i entries)) =
  flat_map
    (fun e => [(lit "#### Section " ++ str_of_nat (fst e), false);
               (format_bullet_points (snd e), true)])
    (enumerate i entries).
Proof.
  revert i. induction entries as [|s entries IH]; intros i; [reflexivity|].
  cbn [enumerate flat_map show_section]. unfold markdowns in *.
  rewrite flat_map_app, IH. reflexivity.
Qed.

Lemma downloads_show_section (i : nat) (entries : list pystr) :
  downloads (flat_map show_section (enumerate i entries)) = [].
Proof.
  revert i. induction entries as [|s entries IH]; intros i; [reflexivity|].
  cbn [enumerate flat_map show_section]. unfold downloads in *.
  rewrite flat_map_app, IH. reflexivity.
Qed.

Lemma enumerate_nth {A : Type} (xs : list A) (start i : nat) (x : A) :
  nth_error xs i = Some x ->
  nth_error (enumerate start xs) i = Some (start + i, x).
Proof.
  revert start i. induction xs as [|y xs IH]; intros start [|i] H;
    try discriminate.
  - injection H as ->. cbn. f_equal. f_equal. lia.
  - cbn. rewrite (IH (S start) i H). f_equal. f_equal. lia.
Qed.

Lemma enumerate_length {A : Type} (xs : list A) (start : nat) :
  length (enumerate start xs) = length xs.
Proof.
  revert start. induction xs as [|y xs IH]; intros start; [reflexivity|].
  cbn. now rewrite IH.
Qed.




(** C2, as stated, fails: a page without text is followed by no error
    message at all. *)
Lemma empty_page_reports_nothing :
  ~ (forall w : World,
        url w <> [] -> extracted_text w (url w) = Some [] ->
        model_calls (trace (on_analyze w)) = []
        /\ errors (trace (on_analyze w)) <> []).
Proof.
  intros H.
  assert (U : url (sample_world (lit "key") []) <> []) by discriminate.
  destruct (H (sample_world (lit "key") []) U eq_refl) as [_ E].
  apply E. reflexivity.
Qed.

(** C2, amended.  When the page has no text, [analyze_url] returns [None]
    right after the request: the text is not split, the model is not called,
    and no error is shown.  All the run shows after the scraping status is
    [Analysis complete!]. *)
Theorem empty_page_is_silent (w : World) :
  url w <> [] -> extracted_text w (url w) = Some [] ->
  result (analyze_url w (url w)) = Returned None
  /\ trace (on_analyze w) =
     [StWrite (lit "Starting analysis...");
      StProgress 0; StEmpty; StatusText (lit "Scraping webpage...");
      RequestsGet (url w) user_agent;
      StSuccess (lit "Analysis complete!")]
  /\ model_calls (trace (on_analyze w)) = []
  /\ errors (trace (on_analyze w)) = [].
Proof.
  intros Hu H. rewrite (on_analyze_run w Hu).
  rewrite (analyze_url_no_content w (url w) H).
  split; [reflexivity|]. split; [reflexivity|]. split; reflexivity.
Qed.

Lemma empty_page_is_silent_witness :
  let w := sample_world (lit "key") [] in
  result (analyze_url w (url w)) = Returned None
  /\ trace (on_analyze w) =
     [StWrite (lit "Starting analysis...");
      StProgress 0; StEmpty; StatusText (lit "Scraping webpage...");
      RequestsGet (url w) user_agent;
      StSuccess (lit "Analysis complete!")]
  /\ model_calls (trace (on_analyze w)) = []
  /\ errors (trace (on_analyze w)) = [].
Proof.
  intros w. apply (empty_page_is_silent w); [discriminate|reflexivity].
Defined.

(** A run that returns summaries went through the loop with a key and a
    page that has text. *)
Lemma analyze_url_summaries (w : World) (u : pystr) (summaries : list pystr) :
  result (analyze_url w u) = Returned (Some summaries) ->
  exists content,
    extracted_text w u = Some content
    /\ map inl summaries
       = map (fun e => groq_complete w (client w) (fst e)
                         (summary_prompt (snd e)))
           (enumerate 0 (splits_of w content))
    /\ model_calls (trace (analyze_url w u))
       = map summary_prompt (splits_of w content).
Proof.
  intros R. analyze_url_by_cases w u as e content H Hne K; try discriminate.
  exists content. split; [exact H|].
  destruct (summary_loop_run w content) as (_ & _ & _ & Hr).
  destruct (result (summary_loop w content)) as [all| |] eqn:E;
    try discriminate.
  injection R as ->. destruct (Hr summaries eq_refl) as (Hm & Hc).
  split; [exact Hm|].
  unfold trace, model_calls in *. cbn [fst].
  rewrite !flat_map_app, Hc. cbn. now rewrite app_nil_r.
Qed.

(** One turn of the loop over the chunks. *)
Lemma summarize_from_cons (w : World) (llm : ChatGroq) (total i : nat)
    (split : pystr) (rest acc : list pystr) :
  summarize_from w llm total i (split :: rest) acc =
  match groq_complete w llm i (summary_prompt split) with
  | inl summary =>
      let r := summarize_from w llm total (S i) rest (acc ++ [summary]) in
      (ChainInvoke llm (summary_prompt split)
         :: ProgressBar (Qmin (current_progress i total) 1)
         :: TimeSleep (1 # 2) :: trace r,
       result r)
  | inr e => ([ChainInvoke llm (summary_prompt split)], Raised e)
  end.
Proof.
  cbn [summarize_from]. unfold chain_invoke.
  destruct (groq_complete w llm i (summary_prompt split)); reflexivity.
Qed.

(** When every call answers, the loop returns the answers in call order. *)
Lemma summarize_from_answers (w : World) (llm : ChatGroq) (total : nat)
    (splits : list pystr) :
  forall i acc answers,
    map inl answers
    = map (fun e => groq_complete w llm (fst e) (summary_prompt (snd e)))
        (enumerate i splits) ->
    result (summarize_from w llm total i splits acc)
    = Returned (acc ++ answers).
Proof.
  induction splits as [|split rest IH]; intros i acc answers Ha.
  - destruct answers; [|discriminate]. now rewrite app_nil_r.
  - destruct answers as [|a answers]; [discriminate|].
    cbn [enumerate map fst snd] in Ha. injection Ha as Ha0 Ha.
    rewrite summarize_from_cons, <- Ha0. cbn zeta. unfold result at 1.
    cbn [snd]. fold (result (summarize_from w llm total (S i) rest
                               (acc ++ [a]))).
    rewrite (IH (S i) (acc ++ [a]) answers Ha).
    now rewrite <- app_assoc.
Qed.

(** A page with text, a key and a model that answers every call: the run
    returns the answers. *)
Lemma analyze_url_answers (w : World) (u content : pystr)
    (answers : list pystr) :
  extracted_text w u = Some content -> content <> [] ->
  groq_api_key w <> [] ->
  map inl answers
  = map (fun e => groq_complete w (client w) (fst e) (summary_prompt (snd e)))
      (enumerate 0 (splits_of w content)) ->
  result (analyze_url w u) = Returned (Some answers).
Proof.
  intros H Hne K Ha. rewrite (analyze_url_with_key w u content H Hne K).
  unfold summary_loop.
  rewrite (summarize_from_answers w (client w) _ _ 0 [] answers Ha).
  reflexivity.
Qed.

(** The run over the page of three lines. *)
Lemma three_topics_run :
  result (analyze_url (lines_world three_topics None)
            (url (lines_world three_topics None)))
  = Returned (Some [lit "* about first topic"; lit "* about second topic";
                    lit "* about third topic"]).
Proof.
  apply (analyze_url_answers _ _ three_topics); [reflexivity|discriminate|
    discriminate|reflexivity].
Qed.

Lemma enumerate_combine {A : Type} (xs : list A) (start : nat) :
  enumerate start xs = combine (seq start (length xs)) xs.
Proof.
  revert start. induction xs as [|x xs IH]; intros start; [reflexivity|].
  cbn. now rewrite IH.
Qed.

Lemma join_concat (sep first : pystr) (rest : list pystr) :
  join sep (first :: rest) = first ++ concat (map (fun s => sep ++ s) rest).
Proof.
  revert first. induction rest as [|s rest IH]; intros first.
  - cbn. now rewrite app_nil_r.
  - change (join sep (first :: s :: rest))
      with (first ++ sep ++ join sep (s :: rest)).
    rewrite IH. cbn [map concat]. now rewrite <- app_assoc.
Qed.

(** The decimal numerals of the section headings. *)
Example str_of_nat_decimal :
  map str_of_nat [0; 1; 2; 9; 10; 12; 305]
  = [lit "0"; lit "1"; lit "2"; lit "9"; lit "10"; lit "12"; lit "305"].
Proof. reflexivity. Qed.

(** The prompt sent for a chunk, character by character. *)
Example summary_prompt_text :
  summary_prompt (lit "first topic")
  = lit "Extract and summarize the key points from this text as a bullet-point list."
    ++ [10%N]
    ++ lit "            Each point should start with a bullet point ("
    ++ lit "*)."
    ++ [10%N]
    ++ lit "            Focus on meaningful information and ignore navigation elements."
    ++ [10%N; 10%N]
    ++ lit "            Text: first topic"
    ++ [10%N; 10%N]
    ++ lit "            Key Points:".
Proof. reflexivity. Qed.

(** What the handler shows in the formatted tab, in terms of the model. *)
Lemma on_analyze_sections (w : World) (summaries : list pystr) :
  url w <> [] ->
  result (analyze_url w (url w)) = Returned (Some summaries) ->
  exists content,
    extracted_text w (url w) = Some content
    /\ let chunks := create_documents w 2000 200 separators content in
       length summaries = length chunks
       /\ (forall i chunk,
             nth_error chunks i = Some chunk ->
             exists summary,
               nth_error summaries i = Some summary
               /\ groq_complete w (client w) i (summary_prompt chunk)
                  = inl summary)
       /\ model_calls (trace (analyze_url w (url w)))
          = map summary_prompt chunks
       /\ markdowns (trace (on_analyze w))
          = flat_map
              (fun e =>
                 [(lit "#### Section " ++ str_of_nat (fst e), false);
                  (format_bullet_points (snd e), true)])
              (enumerate 1 summaries).
Proof.
  intros Hu R.
  destruct (analyze_url_summaries w (url w) summaries R)
    as (content & H & Hm & Hc).
  exists content. split; [exact H|]. unfold splits_of in *. cbn zeta.
  assert (Hlen : length summaries
                 = length (create_documents w 2000 200 separators content)).
  { apply (f_equal (@length _)) in Hm.
    now rewrite !length_map, enumerate_length in Hm. }
  split; [exact Hlen|]. split; [|split; [exact Hc|]].
  - intros i chunk Hi.
    apply (enumerate_nth _ 0) in Hi.
    apply (f_equal (fun l => nth_error l i)) in Hm.
    rewrite !nth_error_map, Hi in Hm. cbn [option_map fst snd Nat.add] in Hm.
    destruct (nth_error summaries i) as [summary|]; [|discriminate].
    exists summary. split; [reflexivity|].
    cbn [option_map] in Hm. now injection Hm as ->.
  - rewrite (on_analyze_run w Hu), R.
    destruct (analyze_url_backstage w (url w)) as [Hb _].
    apply markdowns_backstage in Hb.
    destruct summaries as [|s rest].
    + unfold trace, markdowns in *. cbn [fst flat_map].
      now rewrite flat_map_app, Hb.
    + unfold trace in *. cbn [fst]. unfold show_results.
      change (markdowns
                ([StWrite (lit "Starting analysis...")]
                 ++ fst (analyze_url w (url w))
                 ++ ([StTabs [lit "Formatted Summary"; lit "Raw Text"];
                      StSubheader (lit "Analysis Results")]
                     ++ flat_map show_section (enumerate 1 (s :: rest))
                     ++ [StDownloadButton (lit "Download Summary")
                           (join (nl ++ nl) (s :: rest))
                           (lit "web_content_summary.txt") (lit "text/plain");
                         StTextArea (lit "Raw Summary Text")
                           (join (nl ++ nl) (s :: rest)) 400])
                 ++ [StSuccess (lit "Analysis complete!")])
              = flat_map
                  (fun e =>
                     [(lit "#### Section " ++ str_of_nat (fst e), false);
                      (format_bullet_points (snd e), true)])
                  (enumerate 1 (s :: rest))).
      unfold markdowns at 1. rewrite !flat_map_app.
      fold (markdowns (fst (analyze_url w (url w)))).
      fold (markdowns (flat_map show_section (enumerate 1 (s :: rest)))).
      rewrite Hb, markdowns_show_section.
      match goal with |- _ = ?shown => generalize shown end.
      intros shown. cbn. now rewrite !app_nil_r.
Qed.

(** C8.  For every run that returns summaries: there are as many summaries
    as chunks; the [i]-th summary is the model's answer to the [i]-th call,
    made with the prompt written around the [i]-th chunk; the calls are made
    in chunk order, one per chunk; and the handler shows, for
    [i = 1, 2, ...] in order, the heading [Section i] in decimal followed by
    the formatted [i]-th summary.  The prompt and the numeral are written
    out here, independently of [summary_prompt] and [str_of_nat]. *)
Theorem summaries_follow_chunks (w : World) (summaries : list pystr) :
  url w <> [] ->
  result (analyze_url w (url w)) = Returned (Some summaries) ->
  let prompt := fun chunk : pystr =>
    lit "Extract and summarize the key points from this text as a bullet-point list."
      ++ [10%N]
      ++ lit "            Each point should start with a bullet point ("
      ++ lit "*)."
      ++ [10%N]
      ++ lit "            Focus on meaningful information and ignore navigation elements."
      ++ [10%N; 10%N]
      ++ lit "            Text: " ++ chunk
      ++ [10%N; 10%N]
      ++ lit "            Key Points:" in
  let heading := fun i : nat =>
    lit "#### Section " ++ lit (NilEmpty.string_of_uint (Nat.to_uint i)) in
  exists content,
    extracted_text w (url w) = Some content
    /\ let chunks := create_documents w 2000 200 separators content in
       length summaries = length chunks
       /\ (forall i chunk,
             nth_error chunks i = Some chunk ->
             exists summary,
               nth_error summaries i = Some summary
               /\ groq_complete w (client w) i (prompt chunk) = inl summary)
       /\ model_calls (trace (analyze_url w (url w))) = map prompt chunks
       /\ markdowns (trace (on_analyze w))
          = flat_map
              (fun e =>
                 [(heading (fst e), false);
                  (format_bullet_points (snd e), true)])
              (combine (seq 1 (length chunks)) summaries).
Proof.
  intros Hu R prompt heading.
  assert (Hp : forall chunk, summary_prompt chunk = prompt chunk).
  { intros chunk. unfold summary_prompt, prompt, indent.
    change nl with [10%N].
    repeat rewrite <- app_assoc. repeat f_equal. }
  destruct (on_analyze_sections w summaries Hu R)
    as (content & H & Hlen & Hnth & Hcalls & Hmd).
  exists content. split; [exact H|]. cbn zeta in *.
  split; [exact Hlen|]. split; [|split].
  - intros i chunk Hi. destruct (Hnth i chunk Hi) as (summary & Hs & Hg).
    exists summary. split; [exact Hs|]. now rewrite <- Hp.
  - rewrite Hcalls. apply map_ext. exact Hp.
  - rewrite Hmd, enumerate_combine, Hlen. reflexivity.
Qed.

Lemma summaries_follow_chunks_witness :
  let w := lines_world three_topics None in
  let summaries :=
    [lit "* about first topic"; lit "* about second topic";
     lit "* about third topic"] in
  let prompt := fun chunk : pystr =>
    lit "Extract and summarize the key points from this text as a bullet-point list."
      ++ [10%N]
      ++ lit "            Each point should start with a bullet point ("
      ++ lit "*)."
      ++ [10%N]
      ++ lit "            Focus on meaningful information and ignore navigation elements."
      ++ [10%N; 10%N]
      ++ lit "            Text: " ++ chunk
      ++ [10%N; 10%N]
      ++ lit "            Key Points:" in
  let heading := fun i : nat =>
    lit "#### Section " ++ lit (NilEmpty.string_of_uint (Nat.to_uint i)) in
  url w <> []
  /\ result (analyze_url w (url w)) = Returned (Some summaries)
  /\ exists content,
       extracted_text w (url w) = Some content
       /\ let chunks := create_documents w 2000 200 separators content in
          length summaries = length chunks
          /\ (forall i chunk,
                nth_error chunks i = Some chunk ->
                exists summary,
                  nth_error summaries i = Some summary
                  /\ groq_complete w (client w) i (prompt chunk)
                     = inl summary)
          /\ model_calls (trace (analyze_url w (url w))) = map prompt chunks
          /\ markdowns (trace (on_analyze w))
             = flat_map
                 (fun e =>
                    [(heading (fst e), false);
                     (format_bullet_points (snd e), true)])
                 (combine (seq 1 (length chunks)) summaries).
Proof.
  intros w summaries.
  assert (Hu : url w <> []) by discriminate.
  assert (R : result (analyze_url w (url w)) = Returned (Some summaries))
    by exact three_topics_run.
  exact (conj Hu (conj R (summaries_follow_chunks w summaries Hu R))).
Defined.

(** The page of three lines, from the request to the formatted tab: three
    chunks, three prompts in order, three numbered sections. *)
Example three_sections :
  let w := lines_world three_topics None in
  model_calls (trace (analyze_url w (url w)))
  = map summary_prompt
      [lit "first topic"; lit "second topic"; lit "third topic"]
  /\ markdowns (trace (on_analyze w))
     = [(lit "#### Section 1", false);
        (lit "<div class='content-box'><div class='bullet-point'>about first topic</div></div>",
         true);
        (lit "#### Section 2", false);
        (lit "<div class='content-box'><div class='bullet-point'>about second topic</div></div>",
         true);
        (lit "#### Section 3", false);
        (lit "<div class='content-box'><div class='bullet-point'>about third topic</div></div>",
         true)].
Proof.
  intros w.
  assert (Hu : url w <> []) by discriminate.
  destruct (on_analyze_sections w _ Hu three_topics_run)
    as (content & H & _ & _ & Hc & Hm).
  vm_compute in H. injection H as <-. cbn zeta in Hc.
  rewrite Hc, Hm. split; vm_compute; reflexivity.
Qed.

(** What the handler offers for download, in terms of the model. *)
Lemma on_analyze_downloads (w : World) (s : pystr) (rest : list pystr) :
  url w <> [] ->
  result (analyze_url w (url w)) = Returned (Some (s :: rest)) ->
  downloads (trace (on_analyze w))
  = [(join (nl ++ nl) (s :: rest),
      lit "web_content_summary.txt", lit "text/plain")].
Proof.
  intros Hu R. rewrite (on_analyze_run w Hu), R.
  destruct (analyze_url_backstage w (url w)) as [Hb _].
  apply downloads_backstage in Hb.
  unfold trace in *. cbn [fst]. unfold show_results.
  change (downloads
            ([StWrite (lit "Starting analysis...")]
             ++ fst (analyze_url w (url w))
             ++ ([StTabs [lit "Formatted Summary"; lit "Raw Text"];
                  StSubheader (lit "Analysis Results")]
                 ++ flat_map show_section (enumerate 1 (s :: rest))
                 ++ [StDownloadButton (lit "Download Summary")
                       (join (nl ++ nl) (s :: rest))
                       (lit "web_content_summary.txt") (lit "text/plain");
                     StTextArea (lit "Raw Summary Text")
                       (join (nl ++ nl) (s :: rest)) 400])
             ++ [StSuccess (lit "Analysis complete!")])
          = [(join (nl ++ nl) (s :: rest),
              lit "web_content_summary.txt", lit "text/plain")]).
  unfold downloads at 1. rewrite !flat_map_app.
  fold (downloads (fst (analyze_url w (url w)))).
  fold (downloads (flat_map show_section (enumerate 1 (s :: rest)))).
  rewrite Hb, downloads_show_section.
  generalize (join (nl ++ nl) (s :: rest)). intros combined_text.
  reflexivity.
Qed.

(** C9.  For every run that returns at least one summary, the handler offers
    exactly one download: the file [web_content_summary.txt] of type
    [text/plain], whose content is the first summary followed, for each
    later summary in order, by two newline characters and that summary.
    This text is what [join] computes with the separator of the source. *)
Theorem download_is_combined_text (w : World) (first : pystr)
    (rest : list pystr) :
  url w <> [] ->
  result (analyze_url w (url w)) = Returned (Some (first :: rest)) ->
  let combined :=
    first ++ concat (map (fun s => [10%N; 10%N] ++ s) rest) in
  downloads (trace (on_analyze w))
  = [(combined, lit "web_content_summary.txt", lit "text/plain")]
  /\ join (nl ++ nl) (first :: rest) = combined.
Proof.
  intros Hu R combined.
  assert (J : join (nl ++ nl) (first :: rest) = combined)
    by apply join_concat.
  split; [|exact J].
  rewrite (on_analyze_downloads w first rest Hu R). now rewrite J.
Qed.

Lemma download_is_combined_text_witness :
  let w := lines_world three_topics None in
  let first := lit "* about first topic" in
  let rest := [lit "* about second topic"; lit "* about third topic"] in
  url w <> []
  /\ result (analyze_url w (url w)) = Returned (Some (first :: rest))
  /\ downloads (trace (on_analyze w))
     = [(first ++ concat (map (fun s => [10%N; 10%N] ++ s) rest),
         lit "web_content_summary.txt", lit "text/plain")]
  /\ join (nl ++ nl) (first :: rest)
     = first ++ concat (map (fun s => [10%N; 10%N] ++ s) rest).
Proof.
  intros w first rest.
  assert (Hu : url w <> []) by discriminate.
  assert (R : result (analyze_url w (url w)) = Returned (Some (first :: rest)))
    by exact three_topics_run.
  exact (conj Hu (conj R (download_is_combined_text w first rest Hu R))).
Defined.

Example join_blank_line :
  join (nl ++ nl) [lit "a"; lit "b"; lit "c"] =
  lit "a" ++ [10%N; 10%N] ++ lit "b" ++ [10%N; 10%N] ++ lit "c".
Proof. reflexivity. Qed.

(** The download of the page of three lines, character by character. *)
Example download_of_three_summaries :
  downloads (trace (on_analyze (lines_world three_topics None)))
  = [(lit "* about first topic" ++ [10%N; 10%N]
        ++ lit "* about second topic" ++ [10%N; 10%N]
        ++ lit "* about third topic",
      lit "web_content_summary.txt", lit "text/plain")].
Proof.
  assert (Hu : url (lines_world three_topics None) <> []) by discriminate.
  rewrite (on_analyze_downloads _ _ _ Hu three_topics_run). reflexivity.
Qed.

(** C10, as stated, fails: with a URL, a page that has text and no key, the
    script is stopped and [Analysis complete!] is never shown. *)
Lemma stopped_run_shows_no_completion :
  ~ (forall w : World,
        url w <> [] ->
        In (StSuccess (lit "Analysis complete!")) (trace (on_analyze w))).
Proof.
  intros H.
  assert (U : url (sample_world [] (lit "hello")) <> []) by discriminate.
  specialize (H (sample_world [] (lit "hello")) U).
  vm_compute in H.
  repeat (destruct H as [H|H]; [discriminate H|]). exact H.
Qed.

(** C10, amended.  For every run with a URL in which [analyze_url] returns,
    with summaries or with [None], the handler runs to its end and the last
    thing it shows is [Analysis complete!]. *)
Theorem completion_shown_when_analyze_returns (w : World) :
  url w <> [] ->
  (exists r, result (analyze_url w (url w)) = Returned r) ->
  result (on_analyze w) = Returned tt
  /\ exists shown,
       trace (on_analyze w)
       = shown ++ [StSuccess (lit "Analysis complete!")].
Proof.
  intros Hu [r R]. rewrite (on_analyze_run w Hu), R.
  destruct r as [[|s rest]|].
  - split; [reflexivity|].
    exists (StWrite (lit "Starting analysis...")
              :: trace (analyze_url w (url w))). reflexivity.
  - split; [reflexivity|].
    exists (StWrite (lit "Starting analysis...")
              :: trace (analyze_url w (url w)) ++ show_results (s :: rest)).
    unfold trace. cbn [fst]. now rewrite <- app_comm_cons, <- app_assoc.
  - split; [reflexivity|].
    exists (StWrite (lit "Starting analysis...")
              :: trace (analyze_url w (url w))). reflexivity.
Qed.

Lemma completion_shown_when_analyze_returns_witness :
  let w := sample_world (lit "key") [] in
  url w <> []
  /\ (exists r, result (analyze_url w (url w)) = Returned r)
  /\ result (on_analyze w) = Returned tt
  /\ exists shown,
       trace (on_analyze w)
       = shown ++ [StSuccess (lit "Analysis complete!")].
Proof.
  intros w.
  assert (Hu : url w <> []) by discriminate.
  assert (R : exists r, result (analyze_url w (url w)) = Returned r)
    by (exists None; reflexivity).
  exact (conj Hu (conj R (completion_shown_when_analyze_returns w Hu R))).
Defined.

(** The hypothesis of the amended C10 fails only in the stopped run: whenever
    a key is given, or the page has no text, or the request fails,
    [analyze_url] returns. *)
Lemma analyze_url_returns (w : World) (u : pystr) :
  (exists r, result (analyze_url w u) = Returned r)
  <-> result (analyze_url w u) <> Stopped.
Proof.
  split.
  - intros [r R]. rewrite R. discriminate.
  - intros S. destruct (analyze_url_backstage w u) as [_ Hr].
    destruct (result (analyze_url w u)) as [r|e|].
    + exists r. reflexivity.
    + exfalso. apply (Hr e). reflexivity.
    + contradiction.
Qed.

(** * Further properties *)

(** ** The clean-up of the extracted text *)

Lemma islinebreak_isspace (c : N) : islinebreak c = true -> isspace c = true.
Proof.
  unfold islinebreak, isspace.
  rewrite !orb_true_iff, !andb_true_iff, !N.leb_le, !N.eqb_eq. lia.
Qed.

Lemma drop_leading_suffix (p : N -> bool) (s : pystr) :
  exists dropped,
    s = dropped ++ drop_leading p s /\ forallb p dropped = true.
Proof.
  induction s as [|c s (d & E & F)]; [exists []; split; reflexivity|].
  cbn [drop_leading]. destruct (p c) eqn:Pc.
  - exists (c :: d). cbn. rewrite Pc, F. split; [now rewrite <- E|reflexivity].
  - exists []. split; reflexivity.
Qed.

Lemma drop_trailing_prefix (p : N -> bool) (s : pystr) :
  exists dropped,
    s = drop_trailing p s ++ dropped /\ forallb p dropped = true.
Proof.
  induction s as [|c s (d & E & F)]; [exists []; split; reflexivity|].
  cbn [drop_trailing]. destruct (drop_trailing p s) as [|k kept] eqn:D.
  - destruct (p c) eqn:Pc.
    + exists (c :: d). cbn in *. rewrite Pc, F, <- E. split; reflexivity.
    + exists d. cbn in *. subst s. split; [reflexivity|exact F].
  - exists d. split; [|exact F].
    change (c :: s = c :: (k :: kept) ++ d). now rewrite <- E.
Qed.

(** [strip] cuts whitespace off both ends and nothing else. *)
Lemma strip_parts (s : pystr) :
  exists before after,
    s = before ++ strip s ++ after
    /\ forallb isspace before = true /\ forallb isspace after = true.
Proof.
  destruct (drop_leading_suffix isspace s) as (b & Eb & Fb).
  destruct (drop_trailing_prefix isspace (drop_leading isspace s))
    as (a & Ea & Fa).
  exists b, a. unfold strip. rewrite <- Ea. auto.
Qed.

Lemma visible_app (a b : pystr) : visible (a ++ b) = visible a ++ visible b.
Proof. apply filter_app. Qed.

Lemma visible_spaces (s : pystr) : forallb isspace s = true -> visible s = [].
Proof.
  unfold visible. induction s as [|c s IH]; [reflexivity|].
  cbn [forallb filter]. intros H.
  apply andb_true_iff in H as [Hc Hs]. rewrite Hc. cbn [negb]. now apply IH.
Qed.

Lemma visible_strip (s : pystr) : visible (strip s) = visible s.
Proof.
  destruct (strip_parts s) as (b & a & E & Fb & Fa).
  transitivity (visible (b ++ strip s ++ a)); [|now rewrite <- E].
  rewrite !visible_app, (visible_spaces b Fb), (visible_spaces a Fa).
  now rewrite app_nil_r.
Qed.

Lemma visible_concat_strip (parts : list pystr) :
  visible (concat (map strip parts)) = visible (concat parts).
Proof.
  induction parts as [|p parts IH]; [reflexivity|].
  cbn [map concat]. now rewrite !visible_app, visible_strip, IH.
Qed.

Lemma concat_filter_truthy (parts : list pystr) :
  concat (filter truthy parts) = concat parts.
Proof.
  induction parts as [|[|c p] parts IH]; [reflexivity|exact IH|].
  cbn. now rewrite IH.
Qed.

Lemma visible_join_nl (parts : list pystr) :
  visible (join nl parts) = visible (concat parts).
Proof.
  induction parts as [|p [|q parts] IH]; [reflexivity| |].
  - cbn. now rewrite app_nil_r.
  - change (visible (p ++ nl ++ join nl (q :: parts))
            = visible (p ++ concat (q :: parts))).
    now rewrite !visible_app, IH.
Qed.

(** The pieces of [split] on two spaces keep every visible character. *)
Lemma visible_split_scan (s acc : pystr) (skip : nat) :
  skip = 0 \/ (skip = 1 /\ startswith [32%N] s = true) ->
  visible (concat (split_scan [32%N; 32%N] acc skip s))
  = visible acc ++ visible s.
Proof.
  revert acc skip. induction s as [|c s IH]; intros acc skip H.
  - cbn. now rewrite !app_nil_r.
  - cbn [split_scan]. destruct H as [->|[-> H]].
    + destruct (startswith [32%N; 32%N] (c :: s)) eqn:P.
      * cbn [startswith] in P. apply andb_true_iff in P as [Pc P].
        apply N.eqb_eq in Pc. subst c.
        cbn [concat length Nat.sub]. rewrite visible_app, IH; [reflexivity|].
        right. split; [reflexivity|exact P].
      * rewrite IH by (left; reflexivity).
        rewrite visible_app, <- app_assoc.
        change (c :: s) with ([c] ++ s). now rewrite visible_app.
    + rewrite IH by (left; reflexivity).
      cbn [startswith] in H. apply andb_true_iff in H as [Hc _].
      apply N.eqb_eq in Hc. subst c. reflexivity.
Qed.

Lemma visible_split (s : pystr) :
  visible (concat (split (lit "  ") s)) = visible s.
Proof. apply (visible_split_scan s [] 0). left. reflexivity. Qed.

Lemma splitlines_scan_cons (acc : pystr) (c : N) (rest : pystr) :
  splitlines_scan acc (c :: rest) =
  if islinebreak c then
    match rest with
    | d :: rest' =>
        if (c =? 13)%N && (d =? 10)%N
        then acc :: splitlines_scan [] rest'
        else acc :: splitlines_scan [] rest
    | [] => [acc]
    end
  else splitlines_scan (acc ++ [c]) rest.
Proof. reflexivity. Qed.

(** The lines of [splitlines] keep every visible character. *)
Lemma visible_splitlines_scan (s : pystr) :
  (forall acc,
      visible (concat (splitlines_scan acc s)) = visible acc ++ visible s)
  /\ (forall c acc,
        visible (concat (splitlines_scan acc (c :: s)))
        = visible acc ++ visible (c :: s)).
Proof.
  induction s as [|d s [IH1 IH2]].
  - assert (Hnil : forall acc,
               visible (concat (splitlines_scan acc []))
               = visible acc ++ visible []).
    { intros acc. cbn. destruct acc; cbn; now rewrite ?app_nil_r. }
    split; [exact Hnil|intros c acc].
    rewrite splitlines_scan_cons. destruct (islinebreak c) eqn:L.
    + cbn. rewrite (islinebreak_isspace c L). cbn. now rewrite !app_nil_r.
    + rewrite Hnil, visible_app, <- app_assoc. cbn [visible filter].
      now rewrite !app_nil_r.
  - split; [exact (IH2 d)|]. intros c acc.
    rewrite splitlines_scan_cons. destruct (islinebreak c) eqn:L.
    + assert (Vc : visible (c :: d :: s) = visible (d :: s)).
      { cbn. now rewrite (islinebreak_isspace c L). }
      rewrite Vc. destruct ((c =? 13)%N && (d =? 10)%N) eqn:CR.
      * cbn [concat]. rewrite visible_app, IH1.
        apply andb_true_iff in CR as [_ D]. apply N.eqb_eq in D. subst d.
        reflexivity.
      * cbn [concat]. rewrite visible_app. f_equal. apply (IH2 d []).
    + rewrite (IH2 d), visible_app, <- app_assoc.
      change (c :: d :: s) with ([c] ++ d :: s). now rewrite visible_app.
Qed.

Lemma visible_splitlines (s : pystr) :
  visible (concat (splitlines s)) = visible s.
Proof. apply (proj1 (visible_splitlines_scan s) []). Qed.

Lemma concat_flat_map {A B : Type} (f : A -> list B) (xs : list A) :
  concat (map f xs) = flat_map f xs.
Proof. symmetry. apply flat_map_concat_map. Qed.

Lemma visible_pieces (lines : list pystr) :
  visible
    (concat (flat_map (fun line => map strip (split (lit "  ") line)) lines))
  = visible (concat lines).
Proof.
  induction lines as [|line lines IH]; [reflexivity|].
  cbn [flat_map concat]. rewrite concat_app, !visible_app, IH.
  now rewrite visible_concat_strip, visible_split.
Qed.

(** X1.  The clean-up of the extracted text keeps every character that is
    not whitespace, in order: it only removes or replaces whitespace. *)
Theorem clean_text_keeps_visible (text : pystr) :
  visible (clean_text text) = visible text.
Proof.
  unfold clean_text.
  rewrite visible_join_nl, concat_filter_truthy, visible_pieces.
  now rewrite visible_concat_strip, visible_splitlines.
Qed.

Lemma startswith_app (sep a b : pystr) :
  startswith sep a = true -> startswith sep (a ++ b) = true.
Proof.
  revert a. induction sep as [|x sep IH]; intros [|y a] H;
    try reflexivity; try discriminate.
  cbn [startswith app] in *. apply andb_true_iff in H as [H1 H2].
  now rewrite H1, IH.
Qed.

Lemma occurs_app (sep a b : pystr) :
  occurs sep (a ++ b) = false ->
  occurs sep a = false /\ occurs sep b = false.
Proof.
  induction a as [|x a IH]; intros H.
  - cbn [app] in H. split; [|exact H].
    destruct sep as [|y sep]; [destruct b; discriminate H|reflexivity].
  - cbn [app occurs] in *. apply orb_false_iff in H as [H1 H2].
    destruct (IH H2) as [Ha Hb]. split; [|exact Hb].
    rewrite Ha, orb_false_r.
    destruct (startswith sep (x :: a)) eqn:P; [|reflexivity].
    change (x :: a ++ b) with ((x :: a) ++ b) in H1.
    now rewrite (startswith_app sep (x :: a) b P) in H1.
Qed.

Lemma occurs_strip (sep s : pystr) :
  occurs sep s = false -> occurs sep (strip s) = false.
Proof.
  destruct (strip_parts s) as (b & a & E & _ & _). intros H.
  rewrite E in H. apply occurs_app in H as [_ H].
  now apply occurs_app in H as [H _].
Qed.

Lemma forallb_strip (q : N -> bool) (s : pystr) :
  forallb q s = true -> forallb q (strip s) = true.
Proof.
  destruct (strip_parts s) as (b & a & E & _ & _). intros H.
  rewrite E, !forallb_app in H.
  apply andb_true_iff in H as [_ H]. now apply andb_true_iff in H as [H _].
Qed.

(** What [strip] returns has no whitespace at either end. *)
Lemma strip_ends (s : pystr) :
  drop_leading isspace (strip s) = strip s
  /\ drop_trailing isspace (strip s) = strip s.
Proof.
  split; [|apply drop_trailing_idem].
  pose proof (strip_head s) as H. destruct (strip s) as [|c t];
    [reflexivity|]. now apply drop_leading_head.
Qed.

(** No line of [splitlines] holds a line boundary. *)
Lemma splitlines_scan_lines (s : pystr) :
  (forall acc,
      forallb (fun c => negb (islinebreak c)) acc = true ->
      Forall (fun line => forallb (fun c => negb (islinebreak c)) line = true)
        (splitlines_scan acc s))
  /\ (forall c acc,
        forallb (fun c => negb (islinebreak c)) acc = true ->
        Forall
          (fun line => forallb (fun c => negb (islinebreak c)) line = true)
          (splitlines_scan acc (c :: s))).
Proof.
  induction s as [|d s [IH1 IH2]].
  - assert (Hnil : forall acc,
               forallb (fun c => negb (islinebreak c)) acc = true ->
               Forall
                 (fun line =>
                    forallb (fun c => negb (islinebreak c)) line = true)
                 (splitlines_scan acc [])).
    { intros acc H. cbn. destruct (truthy acc); repeat constructor.
      exact H. }
    split; [exact Hnil|intros c acc H].
    rewrite splitlines_scan_cons. destruct (islinebreak c) eqn:L.
    + repeat constructor. exact H.
    + apply Hnil. rewrite forallb_app, H. cbn. now rewrite L.
  - split; [exact (IH2 d)|]. intros c acc H.
    rewrite splitlines_scan_cons. destruct (islinebreak c) eqn:L.
    + destruct ((c =? 13)%N && (d =? 10)%N).
      * constructor; [exact H|]. now apply IH1.
      * constructor; [exact H|]. now apply (IH2 d).
    + apply (IH2 d). rewrite forallb_app, H. cbn. now rewrite L.
Qed.

(** The pieces of [split] hold only characters of the string. *)
Lemma split_scan_chars (q : N -> bool) (sep s acc : pystr) (skip : nat) :
  forallb q acc = true -> forallb q s = true ->
  Forall (fun piece => forallb q piece = true) (split_scan sep acc skip s).
Proof.
  revert acc skip. induction s as [|c s IH]; intros acc skip Ha Hs.
  - repeat constructor. exact Ha.
  - cbn [forallb] in Hs. apply andb_true_iff in Hs as [Hc Hs].
    cbn [split_scan]. destruct skip as [|k]; [|now apply IH].
    destruct (startswith sep (c :: s)).
    + constructor; [exact Ha|]. now apply IH.
    + apply IH; [|exact Hs]. rewrite forallb_app, Ha. cbn. now rewrite Hc.
Qed.

Lemma occurs_short (c : N) : occurs [32%N; 32%N] [c] = false.
Proof.
  cbn [occurs startswith]. now destruct (32 =? c)%N.
Qed.

(** Appending a character to a string without two spaces in a row gives
    such a string again, unless it puts a second space after a last one. *)
Lemma occurs_snoc (x : pystr) (c d : N) :
  occurs [32%N; 32%N] (x ++ [c]) = false ->
  (32 =? c)%N && (32 =? d)%N = false ->
  occurs [32%N; 32%N] (x ++ [c; d]) = false.
Proof.
  intros H Hcd. induction x as [|a x IH].
  - cbn [app occurs startswith].
    destruct (32 =? c)%N, (32 =? d)%N; try reflexivity; discriminate.
  - cbn [app occurs] in *. apply orb_false_iff in H as [H1 H2].
    rewrite (IH H2), orb_false_r.
    destruct x as [|b x]; cbn [app startswith] in *;
      destruct (32 =? a)%N; try reflexivity.
    + destruct (32 =? c)%N; [discriminate|reflexivity].
    + destruct (32 =? b)%N; [discriminate|reflexivity].
Qed.

(** No piece of [split] on two spaces holds two spaces in a row. *)
Lemma split_scan_pieces (s acc : pystr) (skip : nat) :
  (skip = 0 /\ occurs [32%N; 32%N] (acc ++ firstn 1 s) = false)
  \/ (skip <> 0 /\ acc = []) ->
  Forall (fun piece => occurs [32%N; 32%N] piece = false)
    (split_scan [32%N; 32%N] acc skip s).
Proof.
  revert acc skip. induction s as [|c s IH]; intros acc skip H.
  - repeat constructor. destruct H as [[_ H]|[_ ->]]; [|reflexivity].
    cbn [firstn] in H. now rewrite app_nil_r in H.
  - cbn [split_scan]. destruct H as [[-> H]|[Hk ->]].
    + cbn [firstn] in H.
      destruct (startswith [32%N; 32%N] (c :: s)) eqn:P.
      * constructor; [now apply occurs_app in H as [H _]|].
        apply IH. right. split; [discriminate|reflexivity].
      * apply IH. left. split; [reflexivity|].
        destruct s as [|d s]; cbn [firstn]; [now rewrite app_nil_r|].
        rewrite <- app_assoc. apply occurs_snoc; [exact H|].
        cbn [startswith] in P. now rewrite andb_true_r in P.
    + destruct skip as [|k]; [contradiction|]. apply IH.
      destruct k as [|k].
      * left. split; [reflexivity|]. destruct s as [|d s]; [reflexivity|].
        apply occurs_short.
      * right. split; [discriminate|reflexivity].
Qed.

Lemma split_pieces (s : pystr) :
  Forall (fun piece => occurs (lit "  ") piece = false) (split (lit "  ") s).
Proof.
  apply (split_scan_pieces s [] 0). left. split; [reflexivity|].
  destruct s as [|c s]; [reflexivity|apply occurs_short].
Qed.

(** Every fragment of the cleaned text is well formed. *)
Lemma clean_fragments_ok (text : pystr) :
  Forall fragment_ok (clean_fragments text).
Proof.
  apply Forall_forall. intros f Hf. unfold clean_fragments in Hf.
  apply filter_In in Hf as [Hf Ht]. apply in_flat_map in Hf as (line & Hl & Hf).
  apply in_map_iff in Hf as (piece & <- & Hp).
  apply in_map_iff in Hl as (raw & <- & Hr).
  assert (Lraw : forallb (fun c => negb (islinebreak c)) raw = true).
  { pose proof (proj1 (splitlines_scan_lines text) [] eq_refl) as HF.
    rewrite Forall_forall in HF. now apply HF. }
  assert (Lpiece : forallb (fun c => negb (islinebreak c)) piece = true).
  { pose proof (split_scan_chars (fun c => negb (islinebreak c)) (lit "  ")
                  (strip raw) [] 0 eq_refl (forallb_strip _ _ Lraw)) as HF.
    rewrite Forall_forall in HF. now apply HF. }
  assert (Opiece : occurs (lit "  ") piece = false).
  { pose proof (split_pieces (strip raw)) as HF.
    rewrite Forall_forall in HF. now apply HF. }
  destruct (strip_ends piece) as [E1 E2].
  repeat split; try assumption.
  - intros E. now rewrite E in Ht.
  - now apply forallb_strip.
  - now apply occurs_strip.
Qed.

Lemma clean_text_fragments (text : pystr) :
  clean_text text = join nl (clean_fragments text).
Proof. reflexivity. Qed.

Lemma fragment_head (f : pystr) :
  fragment_ok f ->
  exists c t, f = c :: t /\ isspace c = false /\ islinebreak c = false.
Proof.
  intros (Hne & Hl & _ & Hb & _). destruct f as [|c t]; [contradiction|].
  exists c, t. split; [reflexivity|]. cbn [drop_leading forallb] in *.
  apply andb_true_iff in Hb as [Hb _]. apply negb_true_iff in Hb.
  split; [|exact Hb]. destruct (isspace c) eqn:S; [|reflexivity].
  exfalso. pose proof (drop_leading_length isspace t) as L.
  rewrite Hl in L. cbn in L. lia.
Qed.

Lemma join_cons (sep p q : pystr) (rest : list pystr) :
  join sep (p :: q :: rest) = p ++ sep ++ join sep (q :: rest).
Proof. reflexivity. Qed.

Lemma join_fragments_head (f : pystr) (rest : list pystr) :
  fragment_ok f ->
  exists c t,
    join nl (f :: rest) = c :: t
    /\ isspace c = false /\ islinebreak c = false.
Proof.
  intros Hf. destruct (fragment_head f Hf) as (c & t & -> & Hs & Hb).
  destruct rest as [|g rest].
  - exists c, t. auto.
  - exists c, (t ++ nl ++ join nl (g :: rest)). auto.
Qed.

Lemma drop_trailing_app (p : N -> bool) (a b : pystr) :
  b <> [] -> drop_trailing p b = b -> drop_trailing p (a ++ b) = a ++ b.
Proof.
  intros Hb Eb. induction a as [|x a IH]; [exact Eb|].
  cbn [app drop_trailing]. rewrite IH.
  destruct (a ++ b) eqn:E; [|reflexivity].
  destruct a; [cbn in E; contradiction|discriminate].
Qed.

(** The joined fragments have no whitespace at their end. *)
Lemma join_fragments_trailing (frags : list pystr) :
  Forall fragment_ok frags ->
  drop_trailing isspace (join nl frags) = join nl frags.
Proof.
  induction 1 as [|f rest Hf Hrest IH]; [reflexivity|].
  destruct rest as [|g rest]; [apply Hf|].
  rewrite join_cons, app_assoc. apply drop_trailing_app; [|exact IH].
  inversion Hrest as [|? ? Hg _]; subst.
  destruct (join_fragments_head g rest Hg) as (c & t & -> & _).
  discriminate.
Qed.

(** X2.  The cleaned text has no whitespace at either end. *)
Theorem clean_text_stripped (text : pystr) :
  strip (clean_text text) = clean_text text.
Proof.
  rewrite clean_text_fragments.
  pose proof (clean_fragments_ok text) as H.
  destruct (clean_fragments text) as [|f rest]; [reflexivity|].
  unfold strip. inversion H as [|? ? Hf _]; subst.
  destruct (join_fragments_head f rest Hf) as (c & t & E & Hs & _).
  rewrite E at 1. rewrite (drop_leading_head isspace c t Hs), <- E.
  now apply join_fragments_trailing.
Qed.

Lemma occurs_cons (sep : pystr) (c : N) (s : pystr) :
  occurs sep (c :: s) = startswith sep (c :: s) || occurs sep s.
Proof. reflexivity. Qed.

(** A fragment followed by a newline and a text that begins with no newline
    holds no blank line, if the text holds none. *)
Lemma no_blank_line_app (f : pystr) (d : N) (t : pystr) :
  forallb (fun c => negb (islinebreak c)) f = true ->
  islinebreak d = false ->
  occurs [10%N; 10%N] (d :: t) = false ->
  occurs [10%N; 10%N] (f ++ 10%N :: d :: t) = false.
Proof.
  intros Hf Hd Hrest. induction f as [|c f IH].
  - cbn [app]. rewrite occurs_cons, Hrest, orb_false_r.
    cbn [startswith]. destruct (10 =? d)%N eqn:E; [|now rewrite andb_false_r].
    apply N.eqb_eq in E. subst d. discriminate Hd.
  - cbn [forallb] in Hf. apply andb_true_iff in Hf as [Hc Hf].
    cbn [app]. rewrite occurs_cons, (IH Hf), orb_false_r.
    cbn [startswith]. destruct (10 =? c)%N eqn:E; [|reflexivity].
    apply N.eqb_eq in E. subst c. discriminate Hc.
Qed.

Lemma no_blank_line_fragment (f : pystr) :
  forallb (fun c => negb (islinebreak c)) f = true ->
  occurs [10%N; 10%N] f = false.
Proof.
  induction f as [|c f IH]; [reflexivity|]. cbn [forallb]. intros Hf.
  apply andb_true_iff in Hf as [Hc Hf].
  rewrite occurs_cons, (IH Hf), orb_false_r.
  cbn [startswith]. destruct (10 =? c)%N eqn:E; [|reflexivity].
  apply N.eqb_eq in E. subst c. discriminate Hc.
Qed.

Lemma join_fragments_no_blank_line (frags : list pystr) :
  Forall fragment_ok frags -> occurs [10%N; 10%N] (join nl frags) = false.
Proof.
  induction 1 as [|f rest Hf Hrest IH]; [reflexivity|].
  destruct rest as [|g rest]; [apply no_blank_line_fragment, Hf|].
  rewrite join_cons. inversion Hrest as [|? ? Hg _]; subst.
  destruct (join_fragments_head g rest Hg) as (d & t & E & _ & Hd).
  rewrite E in *. apply (no_blank_line_app f d t); try assumption. apply Hf.
Qed.

(** X3.  The cleaned text holds no blank line: the separator of two
    newlines, the first the splitter is given, never occurs in the text it
    gets. *)
Theorem clean_text_no_blank_line (text : pystr) :
  occurs (nl ++ nl) (clean_text text) = false.
Proof.
  rewrite clean_text_fragments.
  apply (join_fragments_no_blank_line _ (clean_fragments_ok text)).
Qed.

Lemma no_double_space_app (f rest : pystr) :
  occurs [32%N; 32%N] f = false -> occurs [32%N; 32%N] rest = false ->
  occurs [32%N; 32%N] (f ++ 10%N :: rest) = false.
Proof.
  intros Hf Hrest. induction f as [|c f IH].
  - cbn [app]. rewrite occurs_cons, Hrest. reflexivity.
  - rewrite occurs_cons in Hf. apply orb_false_iff in Hf as [Hc Hf].
    cbn [app]. rewrite occurs_cons, (IH Hf), orb_false_r.
    destruct f as [|d f]; cbn [app startswith] in *.
    + now destruct (32 =? c)%N.
    + exact Hc.
Qed.

Lemma join_fragments_no_double_space (frags : list pystr) :
  Forall fragment_ok frags -> occurs (lit "  ") (join nl frags) = false.
Proof.
  induction 1 as [|f rest Hf Hrest IH]; [reflexivity|].
  destruct rest as [|g rest]; [apply Hf|].
  rewrite join_cons. apply (no_double_space_app f); [apply Hf|exact IH].
Qed.

(** X4.  The cleaned text holds no two spaces in a row. *)
Theorem clean_text_no_double_space (text : pystr) :
  occurs (lit "  ") (clean_text text) = false.
Proof.
  rewrite clean_text_fragments.
  apply join_fragments_no_double_space, clean_fragments_ok.
Qed.

(** ** Cleaning twice *)

Lemma splitlines_scan_app (f acc s : pystr) :
  forallb (fun c => negb (islinebreak c)) f = true ->
  splitlines_scan acc (f ++ s) = splitlines_scan (acc ++ f) s.
Proof.
  revert acc. induction f as [|c f IH]; intros acc Hf.
  - now rewrite app_nil_r.
  - cbn [forallb] in Hf. apply andb_true_iff in Hf as [Hc Hf].
    apply negb_true_iff in Hc.
    cbn [app]. rewrite splitlines_scan_cons, Hc, IH by exact Hf.
    now rewrite <- app_assoc.
Qed.

Lemma splitlines_fragments (frags : list pystr) :
  Forall fragment_ok frags -> splitlines (join nl frags) = frags.
Proof.
  unfold splitlines. induction 1 as [|f rest Hf Hrest IH]; [reflexivity|].
  pose proof Hf as (Hne & _ & _ & Hb & _).
  destruct rest as [|g rest].
  - cbn [join]. rewrite <- (app_nil_r f) at 1.
    rewrite splitlines_scan_app by exact Hb. cbn [app splitlines_scan].
    destruct f; [contradiction|reflexivity].
  - rewrite join_cons, splitlines_scan_app by exact Hb. cbn [app nl].
    inversion Hrest as [|? ? Hg _]; subst.
    destruct (join_fragments_head g rest Hg) as (d & t & E & _ & _).
    rewrite E, splitlines_scan_cons. cbn [islinebreak].
    change ((10 <=? 10)%N && (10 <=? 13)%N || (28 <=? 10)%N && (10 <=? 30)%N
            || (10 =? 133)%N || (10 =? 8232)%N || (10 =? 8233)%N)
      with true.
    change ((10 =? 13)%N) with false. cbn [andb].
    rewrite <- E. now rewrite IH.
Qed.

Lemma strip_fragment (f : pystr) : fragment_ok f -> strip f = f.
Proof. intros (_ & Hl & Ht & _). unfold strip. now rewrite Hl. Qed.

Lemma split_scan_whole (sep s acc : pystr) :
  occurs sep s = false -> split_scan sep acc 0 s = [acc ++ s].
Proof.
  revert acc. induction s as [|c s IH]; intros acc H.
  - cbn. now rewrite app_nil_r.
  - rewrite occurs_cons in H. apply orb_false_iff in H as [H1 H2].
    cbn [split_scan]. rewrite H1, IH by exact H2. now rewrite <- app_assoc.
Qed.

Lemma clean_fragments_fixed (frags : list pystr) :
  Forall fragment_ok frags -> clean_fragments (join nl frags) = frags.
Proof.
  intros H. unfold clean_fragments. rewrite (splitlines_fragments frags H).
  induction H as [|f rest Hf Hrest IH]; [reflexivity|].
  cbn [map flat_map]. rewrite filter_app, IH, (strip_fragment f Hf).
  unfold split. rewrite split_scan_whole by apply Hf.
  cbn [app map]. rewrite (strip_fragment f Hf). cbn [filter].
  destruct Hf as (Hne & _). destruct f as [|c f]; [contradiction|].
  reflexivity.
Qed.

(** X5.  Cleaning a cleaned text changes nothing. *)
Theorem clean_text_idempotent (text : pystr) :
  clean_text (clean_text text) = clean_text text.
Proof.
  rewrite !clean_text_fragments at 1.
  now rewrite (clean_fragments_fixed _ (clean_fragments_ok text)).
Qed.

(** X6.  A text gives no content exactly when it holds nothing but
    whitespace. *)
Theorem clean_text_empty_iff (text : pystr) :
  clean_text text = [] <-> forallb isspace text = true.
Proof.
  split.
  - intros E. pose proof (clean_text_keeps_visible text) as V.
    rewrite E in V. cbn in V. clear E.
    induction text as [|c text IH]; [reflexivity|].
    unfold visible in *. cbn [filter forallb] in *.
    destruct (isspace c); [now apply IH|discriminate].
  - intros H. pose proof (clean_text_keeps_visible text) as V.
    rewrite (visible_spaces text H) in V.
    rewrite clean_text_fragments in *.
    pose proof (clean_fragments_ok text) as F.
    destruct (clean_fragments text) as [|f rest]; [reflexivity|].
    inversion F as [|? ? Hf _]; subst.
    destruct (join_fragments_head f rest Hf) as (c & t & E & Hs & _).
    rewrite E in V. unfold visible in V. cbn [filter] in V.
    rewrite Hs in V. discriminate.
Qed.

(** ** The loop over the chunks *)

(** The loop makes model calls, progress updates and pauses, nothing else. *)
Lemma summarize_from_events (w : World) (llm : ChatGroq) (total : nat)
    (splits : list pystr) :
  forall i acc,
    forallb loop_event (trace (summarize_from w llm total i splits acc))
    = true.
Proof.
  induction splits as [|split rest IH]; intros i acc; [reflexivity|].
  rewrite summarize_from_cons.
  destruct (groq_complete w llm i (summary_prompt split)); [|reflexivity].
  cbn zeta. unfold trace at 1. cbn [fst forallb loop_event andb]. apply IH.
Qed.

(** The first call that raises ends the loop: the calls up to it were made,
    one pause followed each call that answered, and the exception leaves the
    loop. *)
Lemma summarize_from_fails (w : World) (llm : ChatGroq) (total : nat)
    (splits : list pystr) :
  forall i acc k chunk e,
    nth_error splits k = Some chunk ->
    groq_complete w llm (i + k) (summary_prompt chunk) = inr e ->
    (forall j c, j < k -> nth_error splits j = Some c ->
                 exists s,
                   groq_complete w llm (i + j) (summary_prompt c) = inl s) ->
    let r := summarize_from w llm total i splits acc in
    result r = Raised e
    /\ model_calls (trace r) = map summary_prompt (firstn (S k) splits)
    /\ sleeps (trace r) = repeat (1 # 2)%Q k.
Proof.
  induction splits as [|split rest IH]; intros i acc k chunk e Hk He Hj;
    [destruct k; discriminate|].
  cbn zeta. rewrite summarize_from_cons. destruct k as [|k].
  - injection Hk as ->. rewrite Nat.add_0_r in He. rewrite He.
    repeat split.
  - destruct (Hj 0 split (Nat.lt_0_succ k) eq_refl) as [s Hs].
    rewrite Nat.add_0_r in Hs. rewrite Hs. cbn zeta.
    destruct (IH (S i) (acc ++ [s]) k chunk e Hk) as (R & C & Z).
    + now rewrite Nat.add_succ_comm.
    + intros j c Hlt Hc. rewrite Nat.add_succ_comm.
      apply (Hj (S j) c); [lia|exact Hc].
    + unfold trace, result in *. cbn [fst snd].
      split; [exact R|]. split.
      * cbn [model_calls flat_map app]. fold (model_calls
          (fst (summarize_from w llm total (S i) rest (acc ++ [s])))).
        rewrite C. reflexivity.
      * cbn [sleeps flat_map app]. fold (sleeps
          (fst (summarize_from w llm total (S i) rest (acc ++ [s])))).
        rewrite Z. reflexivity.
Qed.

(** When every call answers, the loop returns, after one pause per chunk. *)
Lemma summarize_from_succeeds (w : World) (llm : ChatGroq) (total : nat)
    (splits : list pystr) :
  forall i acc,
    (forall j c, nth_error splits j = Some c ->
                 exists s,
                   groq_complete w llm (i + j) (summary_prompt c) = inl s) ->
    exists sums,
      result (summarize_from w llm total i splits acc) = Returned sums.
Proof.
  induction splits as [|split rest IH]; intros i acc Hj.
  - exists acc. reflexivity.
  - rewrite summarize_from_cons.
    destruct (Hj 0 split eq_refl) as [s Hs].
    rewrite Nat.add_0_r in Hs. rewrite Hs. cbn zeta.
    destruct (IH (S i) (acc ++ [s])) as [sums R].
    + intros j c Hc. rewrite Nat.add_succ_comm. now apply (Hj (S j) c).
    + exists sums. exact R.
Qed.

(** A loop that returns paused once after each chunk. *)
Lemma summarize_from_sleeps (w : World) (llm : ChatGroq) (total : nat)
    (splits : list pystr) :
  forall i acc sums,
    result (summarize_from w llm total i splits acc) = Returned sums ->
    sleeps (trace (summarize_from w llm total i splits acc))
    = repeat (1 # 2)%Q (length splits).
Proof.
  induction splits as [|split rest IH]; intros i acc sums; [reflexivity|].
  rewrite summarize_from_cons.
  destruct (groq_complete w llm i (summary_prompt split)); [|discriminate].
  cbn zeta. unfold trace, result in *. cbn [fst snd]. intros R.
  cbn [sleeps flat_map app length repeat].
  fold (sleeps (fst (summarize_from w llm total (S i) rest (acc ++ [p])))).
  now rewrite (IH _ _ _ R).
Qed.

(** ** Runs of [analyze_url] and of the handler *)

Lemma flat_map_loop {A : Type} (f : event -> list A) (tr : list event) :
  (forall e, loop_event e = true -> f e = []) ->
  forallb loop_event tr = true -> flat_map f tr = [].
Proof.
  intros Hf. induction tr as [|e tr IH]; [reflexivity|].
  cbn [forallb flat_map]. intros H. apply andb_true_iff in H as [He Ht].
  now rewrite (Hf e He), IH.
Qed.

Lemma summary_loop_events (w : World) (content : pystr) :
  forallb loop_event (trace (summary_loop w content)) = true.
Proof. apply summarize_from_events. Qed.

Lemma summary_loop_quiet (w : World) (content : pystr) :
  http_fetches (trace (summary_loop w content)) = []
  /\ status_cleared (trace (summary_loop w content)) = false
  /\ progress_cleared (trace (summary_loop w content)) = false.
Proof.
  pose proof (summary_loop_events w content) as H. split; [|split].
  - apply flat_map_loop; [|exact H]. intros [] E; try reflexivity;
      discriminate.
  - unfold status_cleared.
    induction (trace (summary_loop w content)) as [|e tr IH]; [reflexivity|].
    cbn [forallb existsb] in *. apply andb_true_iff in H as [He Ht].
    rewrite (IH Ht), orb_false_r. destruct e; try reflexivity; discriminate.
  - unfold progress_cleared.
    induction (trace (summary_loop w content)) as [|e tr IH]; [reflexivity|].
    cbn [forallb existsb] in *. apply andb_true_iff in H as [He Ht].
    rewrite (IH Ht), orb_false_r. destruct e; try reflexivity; discriminate.
Qed.

(** X9.  Every run of [analyze_url] requests the page exactly once,
    whatever happens afterwards. *)
Theorem analyze_url_fetches_once (w : World) (u : pystr) :
  http_fetches (trace (analyze_url w u)) = [u].
Proof.
  analyze_url_by_cases w u as e content H Hne K; try reflexivity.
  destruct (summary_loop_quiet w content) as [F _].
  destruct (result (summary_loop w content)); unfold trace in *;
    cbn [fst]; unfold http_fetches in *; rewrite !flat_map_app, F;
    reflexivity.
Qed.

(** X10.  No exception leaves [analyze_url], and it never writes a message
    of the handler or a result widget. *)
Theorem analyze_url_never_raises (w : World) (u : pystr) :
  (forall e, result (analyze_url w u) <> Raised e)
  /\ handler_calls (trace (analyze_url w u)) = [].
Proof.
  destruct (analyze_url_backstage w u) as [Hb Hr]. split; [exact Hr|].
  unfold handler_calls. induction (trace (analyze_url w u)) as [|e tr IH];
    [reflexivity|].
  cbn [forallb filter] in *. apply andb_true_iff in Hb as [He Ht].
  rewrite He. cbn [negb]. now apply IH.
Qed.

(** X11.  [analyze_url] clears the status line and the progress bar, both
    of them, exactly in the runs that return summaries: after any failure
    neither is cleared and both stay on the page. *)
Theorem analyze_url_cleared_iff (w : World) (u : pystr) :
  (status_cleared (trace (analyze_url w u)) = true
   <-> exists summaries,
         result (analyze_url w u) = Returned (Some summaries))
  /\ (progress_cleared (trace (analyze_url w u)) = true
      <-> exists summaries,
            result (analyze_url w u) = Returned (Some summaries))
  /\ status_cleared (trace (analyze_url w u))
     = progress_cleared (trace (analyze_url w u)).
Proof.
  analyze_url_by_cases w u as e content H Hne K.
  - repeat split; try discriminate; intros [s E]; discriminate.
  - repeat split; try discriminate; intros [s E]; discriminate.
  - repeat split; try discriminate; intros [s E]; discriminate.
  - destruct (summary_loop_quiet w content) as (_ & C & P).
    destruct (result (summary_loop w content)) as [sums|e|];
      unfold trace, status_cleared, progress_cleared in *; cbn [fst snd];
      rewrite !existsb_app, C, P.
    + repeat split; intros _; now exists sums.
    + repeat split; try discriminate; intros [s E]; discriminate.
    + repeat split; try discriminate; intros [s E]; discriminate.
Qed.

(** The two clearings in the run over a page of one line, and their absence
    when the call raises. *)
Example cleared_after_success_only :
  let ok := lines_world (lit "one topic") None in
  let ko := lines_world (lit "one topic") (Some 0) in
  status_cleared (trace (analyze_url ok (url ok))) = true
  /\ progress_cleared (trace (analyze_url ok (url ok))) = true
  /\ status_cleared (trace (analyze_url ko (url ko))) = false
  /\ progress_cleared (trace (analyze_url ko (url ko))) = false.
Proof. repeat split; vm_compute; reflexivity. Qed.

(** X8.  A page whose text is nothing but whitespace counts as a page
    without content: [analyze_url] returns [None], shows no error and calls
    no model. *)
Theorem whitespace_page_is_no_content (w : World) (u html : pystr) :
  requests_get w u = inl html ->
  forallb isspace (soup_get_text w html) = true ->
  result (analyze_url w u) = Returned None
  /\ errors (trace (analyze_url w u)) = []
  /\ model_calls (trace (analyze_url w u)) = [].
Proof.
  intros G S.
  assert (E : extracted_text w u = Some []).
  { unfold extracted_text. rewrite G.
    now rewrite (proj2 (clean_text_empty_iff _) S). }
  rewrite (analyze_url_no_content w u E). repeat split.
Qed.

Lemma whitespace_page_is_no_content_witness :
  let w := sample_world (lit "key") (lit "   ") in
  requests_get w (url w) = inl (lit "<html>")
  /\ forallb isspace (soup_get_text w (lit "<html>")) = true
  /\ result (analyze_url w (url w)) = Returned None
  /\ errors (trace (analyze_url w (url w))) = []
  /\ model_calls (trace (analyze_url w (url w))) = [].
Proof.
  intros w.
  assert (G : requests_get w (url w) = inl (lit "<html>")) by reflexivity.
  assert (S : forallb isspace (soup_get_text w (lit "<html>")) = true)
    by reflexivity.
  exact (conj G (conj S
           (whitespace_page_is_no_content w (url w) (lit "<html>") G S))).
Defined.

(** X12.  The first model call that raises ends the run: [analyze_url]
    shows [Error: ...] and returns [None], the summaries of the chunks before
    it are dropped, no later chunk is sent to the model, and the run paused
    once after each call that answered. *)
Theorem failed_call_ends_run (w : World) (u content : pystr) (k : nat)
    (chunk e : pystr) :
  extracted_text w u = Some content -> content <> [] ->
  groq_api_key w <> [] ->
  nth_error (splits_of w content) k = Some chunk ->
  groq_complete w (client w) k (summary_prompt chunk) = inr e ->
  (forall j c, j < k -> nth_error (splits_of w content) j = Some c ->
               exists s,
                 groq_complete w (client w) j (summary_prompt c) = inl s) ->
  result (analyze_url w u) = Returned None
  /\ model_calls (trace (analyze_url w u))
     = map summary_prompt (firstn (S k) (splits_of w content))
  /\ errors (trace (analyze_url w u)) = [lit "Error: " ++ e]
  /\ sleeps (trace (analyze_url w u)) = repeat (1 # 2)%Q k.
Proof.
  intros H Hne K Hk He Hj.
  rewrite (analyze_url_with_key w u content H Hne K).
  destruct (summarize_from_fails w (client w) (length (splits_of w content))
              (splits_of w content) 0 [] k chunk e Hk He Hj) as (R & C & Z).
  fold (summary_loop w content) in R, C, Z. rewrite R.
  destruct (summary_loop_run w content) as (_ & Herr & _).
  unfold trace in *. cbn [fst snd].
  split; [reflexivity|]. split; [|split].
  - unfold model_calls in *. rewrite !flat_map_app, C. cbn.
    now rewrite app_nil_r.
  - unfold errors in *. rewrite !flat_map_app, Herr. reflexivity.
  - unfold sleeps in *. rewrite !flat_map_app, Z. cbn.
    now rewrite app_nil_r.
Qed.

Lemma failed_call_ends_run_witness :
  let w := lines_world three_topics (Some 1) in
  let content := three_topics in
  let chunk := lit "second topic" in
  extracted_text w (url w) = Some content
  /\ content <> []
  /\ groq_api_key w <> []
  /\ splits_of w content
     = [lit "first topic"; lit "second topic"; lit "third topic"]
  /\ nth_error (splits_of w content) 1 = Some chunk
  /\ groq_complete w (client w) 1 (summary_prompt chunk)
     = inr (lit "rate limit")
  /\ groq_complete w (client w) 0 (summary_prompt (lit "first topic"))
     = inl (lit "* about first topic")
  /\ result (analyze_url w (url w)) = Returned None
  /\ model_calls (trace (analyze_url w (url w)))
     = map summary_prompt (firstn 2 (splits_of w content))
  /\ errors (trace (analyze_url w (url w))) = [lit "Error: rate limit"]
  /\ sleeps (trace (analyze_url w (url w))) = repeat (1 # 2)%Q 1.
Proof.
  intros w content chunk.
  assert (H : extracted_text w (url w) = Some content) by reflexivity.
  assert (Hne : content <> []) by discriminate.
  assert (K : groq_api_key w <> []) by discriminate.
  assert (Hs : splits_of w content
               = [lit "first topic"; lit "second topic"; lit "third topic"])
    by reflexivity.
  assert (Hk : nth_error (splits_of w content) 1 = Some chunk)
    by reflexivity.
  assert (He : groq_complete w (client w) 1 (summary_prompt chunk)
               = inr (lit "rate limit")) by reflexivity.
  assert (H0 : groq_complete w (client w) 0
                 (summary_prompt (lit "first topic"))
               = inl (lit "* about first topic")) by reflexivity.
  assert (Hj : forall j c, j < 1 ->
               nth_error (splits_of w content) j = Some c ->
               exists s,
                 groq_complete w (client w) j (summary_prompt c) = inl s).
  { intros j c Hlt Hc. destruct j as [|j]; [|lia].
    eexists. reflexivity. }
  exact (conj H (conj Hne (conj K (conj Hs (conj Hk (conj He (conj H0
           (failed_call_ends_run w (url w) content 1 chunk
              (lit "rate limit") H Hne K Hk He Hj)))))))).
Defined.

(** X13.  When the page has text, a key is given and the model answers
    every call, [analyze_url] returns one summary per chunk, shows no error
    and pauses half a second once per chunk. *)
Theorem answered_calls_give_summaries (w : World) (u content : pystr) :
  extracted_text w u = Some content -> content <> [] ->
  groq_api_key w <> [] ->
  (forall j c, nth_error (splits_of w content) j = Some c ->
               exists s,
                 groq_complete w (client w) j (summary_prompt c) = inl s) ->
  exists summaries,
    result (analyze_url w u) = Returned (Some summaries)
    /\ length summaries = length (splits_of w content)
    /\ errors (trace (analyze_url w u)) = []
    /\ sleeps (trace (analyze_url w u))
       = repeat (1 # 2)%Q (length (splits_of w content)).
Proof.
  intros H Hne K Hj.
  rewrite (analyze_url_with_key w u content H Hne K).
  destruct (summarize_from_succeeds w (client w)
              (length (splits_of w content)) (splits_of w content) 0 [] Hj)
    as [sums R].
  pose proof (summarize_from_sleeps _ _ _ _ _ _ _ R) as Z.
  fold (summary_loop w content) in R, Z. rewrite R.
  destruct (summary_loop_run w content) as (_ & Herr & _ & Hr).
  destruct (Hr sums R) as [Hm _].
  exists sums. unfold trace in *. cbn [fst snd].
  split; [reflexivity|]. split; [|split].
  - apply (f_equal (@length _)) in Hm.
    now rewrite !length_map, enumerate_length in Hm.
  - unfold errors in *. rewrite !flat_map_app, Herr. reflexivity.
  - unfold sleeps in *. rewrite !flat_map_app, Z. cbn.
    now rewrite app_nil_r.
Qed.

Lemma answered_calls_give_summaries_witness :
  let w := sample_world (lit "key") (lit "hello world") in
  let content := lit "hello world" in
  extracted_text w (url w) = Some content
  /\ content <> []
  /\ groq_api_key w <> []
  /\ exists summaries,
       result (analyze_url w (url w)) = Returned (Some summaries)
       /\ length summaries = length (splits_of w content)
       /\ errors (trace (analyze_url w (url w))) = []
       /\ sleeps (trace (analyze_url w (url w)))
          = repeat (1 # 2)%Q (length (splits_of w content)).
Proof.
  intros w content.
  assert (H : extracted_text w (url w) = Some content) by reflexivity.
  assert (Hne : content <> []) by discriminate.
  assert (K : groq_api_key w <> []) by discriminate.
  assert (Hj : forall j c,
               nth_error (splits_of w content) j = Some c ->
               exists s,
                 groq_complete w (client w) j (summary_prompt c) = inl s)
    by (intros j c _; eexists; reflexivity).
  exact (conj H (conj Hne (conj K
           (answered_calls_give_summaries w (url w) content H Hne K Hj)))).
Defined.

Lemma handler_calls_backstage (tr : list event) :
  forallb backstage tr = true -> handler_calls tr = [].
Proof.
  unfold handler_calls. induction tr as [|e tr IH]; [reflexivity|].
  cbn [forallb filter]. intros H. apply andb_true_iff in H as [He Ht].
  rewrite He. cbn [negb]. now apply IH.
Qed.

Lemma handler_calls_app (a b : list event) :
  handler_calls (a ++ b) = handler_calls a ++ handler_calls b.
Proof. apply filter_app. Qed.

(** X16.  Unless [analyze_url] returns at least one summary, the handler
    shows no tabs, sections, download button or text area: only its opening
    message and, if the script was not stopped, the completion message. *)
Theorem results_need_summaries (w : World) :
  url w <> [] ->
  (forall s rest,
      result (analyze_url w (url w)) <> Returned (Some (s :: rest))) ->
  handler_calls (trace (on_analyze w))
  = StWrite (lit "Starting analysis...")
      :: match result (analyze_url w (url w)) with
         | Stopped => []
         | _ => [StSuccess (lit "Analysis complete!")]
         end.
Proof.
  intros Hu Hno. rewrite (on_analyze_run w Hu).
  destruct (analyze_url_backstage w (url w)) as [Hb Hr].
  apply handler_calls_backstage in Hb.
  destruct (result (analyze_url w (url w))) as [[[|s rest]|]|e|] eqn:R;
    unfold trace in *; cbn [fst];
    try (change (handler_calls
                   ([StWrite (lit "Starting analysis...")]
                    ++ fst (analyze_url w (url w))
                    ++ [StSuccess (lit "Analysis complete!")])
                 = [StWrite (lit "Starting analysis...");
                    StSuccess (lit "Analysis complete!")]);
         rewrite !handler_calls_app, Hb; reflexivity).
  - exfalso. now apply (Hno s rest).
  - exfalso. now apply (Hr e).
  - change (handler_calls
              ([StWrite (lit "Starting analysis...")]
               ++ fst (analyze_url w (url w)))
            = [StWrite (lit "Starting analysis...")]).
    rewrite handler_calls_app, Hb. reflexivity.
Qed.

Lemma results_need_summaries_witness :
  let w := offline_world in
  url w <> []
  /\ (forall s rest,
        result (analyze_url w (url w)) <> Returned (Some (s :: rest)))
  /\ handler_calls (trace (on_analyze w))
     = StWrite (lit "Starting analysis...")
         :: match result (analyze_url w (url w)) with
            | Stopped => []
            | _ => [StSuccess (lit "Analysis complete!")]
            end.
Proof.
  intros w.
  assert (Hu : url w <> []) by discriminate.
  assert (Hno : forall s rest,
             result (analyze_url w (url w)) <> Returned (Some (s :: rest)))
    by (intros s rest; discriminate).
  exact (conj Hu (conj Hno (results_need_summaries w Hu Hno))).
Defined.

(** X17.  No exception leaves the button handler, and the script is stopped
    in it exactly when a URL is given, the key is missing and the page has
    text. *)
Theorem on_analyze_outcome (w : World) :
  (forall e, result (on_analyze w) <> Raised e)
  /\ (result (on_analyze w) = Stopped
      <-> url w <> [] /\ groq_api_key w = []
          /\ exists content,
               extracted_text w (url w) = Some content /\ content <> []).
Proof.
  destruct (url w) as [|c u] eqn:U.
  - unfold on_analyze. rewrite U. cbn [truthy].
    split; [discriminate|]. split; [discriminate|intros [H _]; contradiction].
  - assert (Hu : url w <> []) by (rewrite U; discriminate).
    rewrite (on_analyze_run w Hu). rewrite U in *.
    destruct (analyze_url_backstage w (c :: u)) as [_ Hr].
    pose proof (analyze_url_stopped w (c :: u)) as S.
    destruct (result (analyze_url w (c :: u))) as [[[|s rest]|]|e|];
      unfold result in *; cbn [snd].
    + split; [discriminate|]. split; [discriminate|].
      intros (_ & K & C). exfalso. now assert (X := proj2 S (conj K C)).
    + split; [discriminate|]. split; [discriminate|].
      intros (_ & K & C). exfalso. now assert (X := proj2 S (conj K C)).
    + split; [discriminate|]. split; [discriminate|].
      intros (_ & K & C). exfalso. now assert (X := proj2 S (conj K C)).
    + exfalso. now apply (Hr e).
    + split; [discriminate|]. split; [|reflexivity].
      intros _. split; [discriminate|]. now apply S.
Qed.

Lemma text_areas_backstage (tr : list event) :
  forallb backstage tr = true -> text_areas tr = [].
Proof.
  apply flat_map_backstage. intros [] H; try reflexivity; discriminate.
Qed.

Lemma text_areas_show_section (i : nat) (entries : list pystr) :
  text_areas (flat_map show_section (enumerate i entries)) = [].
Proof.
  revert i. induction entries as [|s entries IH]; intros i; [reflexivity|].
  cbn [enumerate flat_map show_section]. unfold text_areas in *.
  rewrite flat_map_app, IH. reflexivity.
Qed.

(** What the raw tab holds, in terms of the model. *)
Lemma on_analyze_text_areas (w : World) (s : pystr) (rest : list pystr) :
  url w <> [] ->
  result (analyze_url w (url w)) = Returned (Some (s :: rest)) ->
  text_areas (trace (on_analyze w))
  = [(lit "Raw Summary Text", join (nl ++ nl) (s :: rest), 400)]
  /\ map (fun d => fst (fst d)) (downloads (trace (on_analyze w)))
     = map (fun a => snd (fst a)) (text_areas (trace (on_analyze w))).
Proof.
  intros Hu R. rewrite (on_analyze_run w Hu), R.
  destruct (analyze_url_backstage w (url w)) as [Hb _].
  pose proof (text_areas_backstage _ Hb) as Ht.
  pose proof (downloads_backstage _ Hb) as Hd.
  unfold trace in *. cbn [fst]. unfold show_results.
  set (combined := join (nl ++ nl) (s :: rest)).
  change (StWrite (lit "Starting analysis...")
            :: fst (analyze_url w (url w))
            ++ ([StTabs [lit "Formatted Summary"; lit "Raw Text"];
                 StSubheader (lit "Analysis Results")]
                ++ flat_map show_section (enumerate 1 (s :: rest))
                ++ [StDownloadButton (lit "Download Summary") combined
                      (lit "web_content_summary.txt") (lit "text/plain");
                    StTextArea (lit "Raw Summary Text") combined 400])
            ++ [StSuccess (lit "Analysis complete!")])
    with ([StWrite (lit "Starting analysis...")]
            ++ fst (analyze_url w (url w))
            ++ ([StTabs [lit "Formatted Summary"; lit "Raw Text"];
                 StSubheader (lit "Analysis Results")]
                ++ flat_map show_section (enumerate 1 (s :: rest))
                ++ [StDownloadButton (lit "Download Summary") combined
                      (lit "web_content_summary.txt") (lit "text/plain");
                    StTextArea (lit "Raw Summary Text") combined 400])
            ++ [StSuccess (lit "Analysis complete!")]).
  unfold text_areas at 1 2, downloads at 1. rewrite !flat_map_app.
  fold (text_areas (fst (analyze_url w (url w)))).
  fold (downloads (fst (analyze_url w (url w)))).
  fold (text_areas (flat_map show_section (enumerate 1 (s :: rest)))).
  fold (downloads (flat_map show_section (enumerate 1 (s :: rest)))).
  rewrite Ht, Hd, text_areas_show_section, downloads_show_section.
  clearbody combined. split; reflexivity.
Qed.

(** X18.  After a run that returns summaries, the text area of the raw tab,
    400 high and labelled [Raw Summary Text], holds the first summary
    followed, for each later summary in order, by two newline characters and
    that summary: the very text offered for download. *)
Theorem raw_text_is_download (w : World) (first : pystr)
    (rest : list pystr) :
  url w <> [] ->
  result (analyze_url w (url w)) = Returned (Some (first :: rest)) ->
  let combined :=
    first ++ concat (map (fun s => [10%N; 10%N] ++ s) rest) in
  text_areas (trace (on_analyze w))
  = [(lit "Raw Summary Text", combined, 400)]
  /\ map (fun d => fst (fst d)) (downloads (trace (on_analyze w)))
     = [combined].
Proof.
  intros Hu R combined.
  assert (J : join (nl ++ nl) (first :: rest) = combined)
    by apply join_concat.
  destruct (on_analyze_text_areas w first rest Hu R) as [Ht Hd].
  rewrite Hd, Ht, J. split; reflexivity.
Qed.

Lemma raw_text_is_download_witness :
  let w := lines_world three_topics None in
  let first := lit "* about first topic" in
  let rest := [lit "* about second topic"; lit "* about third topic"] in
  url w <> []
  /\ result (analyze_url w (url w)) = Returned (Some (first :: rest))
  /\ text_areas (trace (on_analyze w))
     = [(lit "Raw Summary Text",
         first ++ concat (map (fun s => [10%N; 10%N] ++ s) rest), 400)]
  /\ map (fun d => fst (fst d)) (downloads (trace (on_analyze w)))
     = [first ++ concat (map (fun s => [10%N; 10%N] ++ s) rest)].
Proof.
  intros w first rest.
  assert (Hu : url w <> []) by discriminate.
  assert (R : result (analyze_url w (url w)) = Returned (Some (first :: rest)))
    by exact three_topics_run.
  exact (conj Hu (conj R (raw_text_is_download w first rest Hu R))).
Defined.

(** The raw tab of the page of three lines, character by character. *)
Example raw_text_of_three_summaries :
  text_areas (trace (on_analyze (lines_world three_topics None)))
  = [(lit "Raw Summary Text",
      lit "* about first topic" ++ [10%N; 10%N]
        ++ lit "* about second topic" ++ [10%N; 10%N]
        ++ lit "* about third topic", 400)].
Proof.
  assert (Hu : url (lines_world three_topics None) <> []) by discriminate.
  destruct (on_analyze_text_areas _ _ _ Hu three_topics_run) as [Ht _].
  rewrite Ht. reflexivity.
Qed.

(** X14.  When the request fails, the handler shows the scraping error,
    nothing of the later steps, and then its completion message. *)
Theorem failed_request_run (w : World) (e : pystr) :
  url w <> [] -> requests_get w (url w) = inr e ->
  on_analyze w =
  ([StWrite (lit "Starting analysis...");
    StProgress 0; StEmpty; StatusText (lit "Scraping webpage...");
    RequestsGet (url w) user_agent;
    StError (lit "Error scraping content: " ++ e);
    StSuccess (lit "Analysis complete!")],
   Returned tt).
Proof.
  intros Hu G. rewrite (on_analyze_run w Hu).
  rewrite (analyze_url_fetch_error w (url w) e G). reflexivity.
Qed.

Lemma failed_request_run_witness :
  let w := offline_world in
  url w <> []
  /\ requests_get w (url w) = inr (lit "404 Client Error")
  /\ on_analyze w =
     ([StWrite (lit "Starting analysis...");
       StProgress 0; StEmpty; StatusText (lit "Scraping webpage...");
       RequestsGet (url w) user_agent;
       StError (lit "Error scraping content: " ++ lit "404 Client Error");
       StSuccess (lit "Analysis complete!")],
      Returned tt).
Proof.
  intros w.
  assert (Hu : url w <> []) by discriminate.
  assert (G : requests_get w (url w) = inr (lit "404 Client Error"))
    by reflexivity.
  exact (conj Hu (conj G
           (failed_request_run w (lit "404 Client Error") Hu G))).
Defined.

(** X15.  The prompt determines the chunk it was built from: different
    chunks give different prompts. *)
Theorem summary_prompt_injective (a b : pystr) :
  summary_prompt a = summary_prompt b -> a = b.
Proof.
  set (before :=
         lit "Extract and summarize the key points from this text as a bullet-point list."
           ++ nl ++ indent
           ++ lit "Each point should start with a bullet point ("
           ++ lit "*)."
           ++ nl ++ indent
           ++ lit "Focus on meaningful information and ignore navigation elements."
           ++ nl ++ nl ++ indent ++ lit "Text: ").
  set (after := nl ++ nl ++ indent ++ lit "Key Points:").
  assert (P : forall t, summary_prompt t = before ++ t ++ after).
  { intros t. unfold summary_prompt, before, after.
    repeat rewrite <- app_assoc. reflexivity. }
  rewrite !P. intros E.
  apply app_inv_head in E. now apply app_inv_tail in E.
Qed.

Lemma summary_prompt_injective_witness :
  summary_prompt (lit "a") = summary_prompt (lit "a")
  /\ lit "a" = lit "a".
Proof.
  assert (E : summary_prompt (lit "a") = summary_prompt (lit "a"))
    by reflexivity.
  exact (conj E (summary_prompt_injective (lit "a") (lit "a") E)).
Defined.

(** ** More on the presenter *)

(** X19.  The formatted summary is one box that holds, in order, one block
    for each line of the stripped summary that is not blank, and nothing
    else; blank lines leave no trace. *)
Theorem format_bullet_points_structure (text : pystr) :
  format_bullet_points text =
  lit "<div class='content-box'>"
    ++ concat
         (map (fun line => lit "<div class='bullet-point'>"
                             ++ strip_bullet line ++ lit "</div>")
            (filter truthy (map strip (split nl (strip text)))))
    ++ lit "</div>".
Proof.
  unfold format_bullet_points. rewrite fold_format_line.
  now rewrite <- app_assoc.
Qed.

(** X20.  A leading dash or star that is followed by whitespace is removed
    together with the whitespace around the rest of the line. *)
Theorem strip_bullet_dash_or_star (g c : N) (t : pystr) :
  g = 45%N \/ g = 42%N -> isspace c = true ->
  strip_bullet (g :: c :: t) = strip t.
Proof.
  intros Hg Hc.
  assert (N45 : (c =? 45)%N = false).
  { destruct (N.eqb_spec c 45); [subst; discriminate|reflexivity]. }
  assert (N42 : (c =? 42)%N = false).
  { destruct (N.eqb_spec c 42); [subst; discriminate|reflexivity]. }
  assert (A : char_in (lit "-") c = false).
  { change (char_in (lit "-") c) with ((c =? 45)%N || false).
    now rewrite N45. }
  assert (B : char_in (lit "*") c = false).
  { change (char_in (lit "*") c) with ((c =? 42)%N || false).
    now rewrite N42. }
  assert (S : strip (c :: t) = strip t).
  { unfold strip. cbn [drop_leading]. now rewrite Hc. }
  unfold strip_bullet. destruct Hg as [-> | ->].
  - rewrite (lstrip_clean bullet_chars (45%N :: c :: t)) by reflexivity.
    change (lstrip (lit "-") (45%N :: c :: t))
      with (lstrip (lit "-") (c :: t)).
    rewrite (lstrip_clean (lit "-") (c :: t)) by exact A.
    now rewrite (lstrip_clean (lit "*") (c :: t)) by exact B.
  - rewrite (lstrip_clean bullet_chars (42%N :: c :: t)) by reflexivity.
    rewrite (lstrip_clean (lit "-") (42%N :: c :: t)) by reflexivity.
    change (lstrip (lit "*") (42%N :: c :: t))
      with (lstrip (lit "*") (c :: t)).
    now rewrite (lstrip_clean (lit "*") (c :: t)) by exact B.
Qed.

Lemma strip_bullet_dash_or_star_witness :
  (45%N = 45%N \/ 45%N = 42%N) /\ isspace 32%N = true
  /\ strip_bullet (45%N :: 32%N :: lit "point ") = strip (lit "point ").
Proof.
  assert (Hg : 45%N = 45%N \/ 45%N = 42%N) by (left; reflexivity).
  assert (Hc : isspace 32%N = true) by reflexivity.
  exact (conj Hg (conj Hc
           (strip_bullet_dash_or_star 45 32 (lit "point ") Hg Hc))).
Defined.

(** X21.  When the result of one pass of the glyph strip still begins with a
    character the pass strips, a second pass changes it. *)
Theorem strip_bullet_second_pass_strips (line : pystr) :
  leading_glyph (strip_bullet line) = true ->
  strip_bullet (strip_bullet line) <> strip_bullet line.
Proof.
  intros H E. pose proof (strip_bullet_shrinks _ H) as L.
  rewrite E in L. lia.
Qed.

Lemma strip_bullet_second_pass_strips_witness :
  leading_glyph (strip_bullet (lit "*-x")) = true
  /\ strip_bullet (strip_bullet (lit "*-x")) <> strip_bullet (lit "*-x").
Proof.
  assert (H : leading_glyph (strip_bullet (lit "*-x")) = true)
    by reflexivity.
  exact (conj H (strip_bullet_second_pass_strips (lit "*-x") H)).
Defined.

Lemma strip_spaces (s : pystr) : forallb isspace s = true -> strip s = [].
Proof.
  unfold strip. induction s as [|c s IH]; [reflexivity|].
  cbn [forallb drop_leading]. intros H.
  apply andb_true_iff in H as [Hc Hs]. rewrite Hc. now apply IH.
Qed.

(** X22.  A summary of nothing but whitespace gives an empty box. *)
Theorem format_bullet_points_blank (text : pystr) :
  forallb isspace text = true ->
  format_bullet_points text = lit "<div class='content-box'></div>".
Proof.
  intros H. unfold format_bullet_points. now rewrite (strip_spaces text H).
Qed.

Lemma format_bullet_points_blank_witness :
  forallb isspace (lit "  " ++ nl ++ lit " ") = true
  /\ format_bullet_points (lit "  " ++ nl ++ lit " ")
     = lit "<div class='content-box'></div>".
Proof.
  assert (H : forallb isspace (lit "  " ++ nl ++ lit " ") = true)
    by reflexivity.
  exact (conj H (format_bullet_points_blank _ H)).
Defined.

(** X23.  The glyph strip never lengthens a line, and its result has no
    whitespace at either end. *)
Theorem strip_bullet_tidy (line : pystr) :
  strip (strip_bullet line) = strip_bullet line
  /\ length (strip_bullet line) <= length line.
Proof.
  split; [apply strip_idem|]. unfold strip_bullet.
  pose proof (strip_length
    (lstrip (lit "*") (lstrip (lit "-") (lstrip bullet_chars line)))) as L1.
  pose proof (lstrip_length (lit "*")
    (lstrip (lit "-") (lstrip bullet_chars line))) as L2.
  pose proof (lstrip_length (lit "-") (lstrip bullet_chars line)) as L3.
  pose proof (lstrip_length bullet_chars line) as L4. lia.
Qed.

(** The style sheet has the length and the code-point sum of the literal in
    the source. *)
Example custom_css_size :
  length custom_css = 450
  /\ fold_right N.add 0%N custom_css = 30343%N.
Proof. split; reflexivity. Qed.

(** ** The whole script *)


